(** * pys5p: a shallow embedding of the accessor and plotting code

    Numbers of the Python/numpy code are modelled by [flt]: a finite
    value (an exact rational), the two infinities, or NaN.  Python
    exceptions are modelled by the [except] monad below. *)

From Stdlib Require Import QArith Qabs Qround ZArith String Ascii List Bool Lia Lqa Sorted Permutation.
Import ListNotations.
Open Scope Q_scope.

(** ** Numbers *)

Inductive flt : Type :=
| Fin (q : Q)
| PInf
| NInf
| NaN.

Definition isfinite (x : flt) : bool :=
  match x with Fin _ => true | _ => false end.

(** IEEE comparison [x == y]: NaN is equal to nothing. *)
Definition feq (x y : flt) : bool :=
  match x, y with
  | Fin a, Fin b => Qeq_bool a b
  | PInf, PInf | NInf, NInf => true
  | _, _ => false
  end.

Definition fneg (x : flt) : flt :=
  match x with
  | Fin a => Fin (- a) | PInf => NInf | NInf => PInf | NaN => NaN
  end.

Definition fadd (x y : flt) : flt :=
  match x, y with
  | Fin a, Fin b => Fin (a + b)
  | NaN, _ | _, NaN => NaN
  | PInf, NInf | NInf, PInf => NaN
  | PInf, _ | _, PInf => PInf
  | NInf, _ | _, NInf => NInf
  end.

Definition fsub (x y : flt) : flt := fadd x (fneg y).

Definition qsign (a : Q) : comparison := Qcompare a 0.

(** [x * y] *)
Definition fmul (x y : flt) : flt :=
  let inf_times s := match s with Gt => PInf | Lt => NInf | Eq => NaN end in
  match x, y with
  | Fin a, Fin b => Fin (a * b)
  | NaN, _ | _, NaN => NaN
  | PInf, Fin b | Fin b, PInf => inf_times (qsign b)
  | NInf, Fin b | Fin b, NInf => fneg (inf_times (qsign b))
  | PInf, PInf | NInf, NInf => PInf
  | PInf, NInf | NInf, PInf => NInf
  end.

(** [x / k] for a positive constant [k] (the in-place [/=] of the
    plotting code). *)
Definition fdivk (x : flt) (k : Q) : flt :=
  match x with Fin a => Fin (a / k) | _ => x end.

(** The fill value of the S5p products, [float.fromhex('0x1.ep+122')]
    = 1.875 * 2^122. *)
Definition fillvalue : Q := inject_Z (15 * 2 ^ 119).

(** ** Exceptions *)

Inductive pyexc : Type :=
| KeyError
| IndexError
| ValueError
| TypeError
| AssertionError
| UnboundLocalError
| InvalidInput.

Inductive except (A : Type) : Type :=
| Ok (a : A)
| Err (e : pyexc).
Arguments Ok {A} a.
Arguments Err {A} e.

Definition ebind {A B} (m : except A) (f : A -> except B) : except B :=
  match m with Ok a => f a | Err e => Err e end.

Notation "x <- m ;; k" := (ebind m (fun x => k))
  (at level 61, m at next level, right associativity).

Fixpoint emap {A B} (f : A -> except B) (l : list A) : except (list B) :=
  match l with
  | [] => Ok []
  | x :: r => y <- f x ;; ys <- emap f r ;; Ok (y :: ys)
  end.

(** ** Strings *)

Local Open Scope string_scope.

Fixpoint starts_with (p s : string) : bool :=
  match p, s with
  | EmptyString, _ => true
  | String a p', String b s' => Ascii.eqb a b && starts_with p' s'
  | _, _ => false
  end.

Definition ends_with_slash (s : string) : bool :=
  match String.get (String.length s - 1) s with
  | Some c => (0 <? String.length s)%nat && Ascii.eqb c "/"%char
  | None => false
  end.

(** [os.path.join(a, b)] (POSIX) *)
Definition path_join (a b : string) : string :=
  if starts_with "/" b then b
  else if (String.length a =? 0)%nat || ends_with_slash a then a ++ b
  else a ++ "/" ++ b.

(** [s.replace('%', r)] *)
Fixpoint replace_pct (s r : string) : string :=
  match s with
  | EmptyString => EmptyString
  | String c s' =>
      if Ascii.eqb c "%"%char then r ++ replace_pct s' r
      else String c (replace_pct s' r)
  end.

(** [s.split(',')]; the accumulator holds the current field reversed. *)
Fixpoint split_comma_aux (s : string) (cur : list ascii) : list string :=
  match s with
  | EmptyString => [string_of_list_ascii (rev cur)]
  | String c s' =>
      if Ascii.eqb c ","%char
      then string_of_list_ascii (rev cur) :: split_comma_aux s' []
      else split_comma_aux s' (c :: cur)
  end.

Definition split_comma (s : string) : list string := split_comma_aux s [].

Local Close Scope string_scope.

(** ** HDF5 products

    A product is modelled by its table of objects, from absolute path to
    group or dataset.  A dataset carries its numpy dtype, its values
    (already flattened, which is what [np.squeeze] keeps of it here) and
    its [_FillValue] attribute, when present. *)

Inductive int_width : Type := I8 | I16 | I32 | I64.

Definition width_bits (w : int_width) : nat :=
  match w with I8 => 8 | I16 => 16 | I32 => 32 | I64 => 64 end.

Inductive dtype : Type :=
| Float32
| Float64
| IntT (w : int_width).

Definition is_int_dtype (t : dtype) : bool :=
  match t with IntT _ => true | _ => false end.

Record dataset : Type := mk_dataset {
  ds_dtype : dtype;
  ds_data : list flt;
  ds_fill : option flt
}.

Inductive node : Type :=
| Group
| Dset (d : dataset).

Definition h5file : Type := string -> option node.

Definition h5_contains (fid : h5file) (path : string) : bool :=
  match fid path with Some _ => true | None => false end.

(** A dataset as numpy can store it: integer datasets hold integers of
    their width, and so does their [_FillValue]. *)
Definition int_fits (bits : nat) (x : flt) : bool :=
  match x with
  | Fin q =>
      Qeq_bool q (inject_Z (Qnum q / Zpos (Qden q)))
      && Qle_bool (- inject_Z (2 ^ (Z.of_nat bits - 1))) q
      && Qle_bool q (inject_Z (2 ^ (Z.of_nat bits - 1) - 1))
  | _ => false
  end.

Definition ds_wf (d : dataset) : bool :=
  match ds_dtype d with
  | IntT w =>
      forallb (int_fits (width_bits w)) (ds_data d)
      && match ds_fill d with Some f => int_fits (width_bits w) f | None => true end
  | _ => true
  end.

(** [data[(data == fillvalue)] = np.nan]: numpy converts NaN to the
    dtype of the array before it looks at the mask, and an integer array
    refuses it ([ValueError]) even when no element is selected. *)
Definition set_nan_where_fill (t : dtype) (xs : list flt) : except (list flt) :=
  if is_int_dtype t then Err ValueError
  else Ok (map (fun x => if feq x (Fin fillvalue) then NaN else x) xs).

(** ** ICMio (icm_io.py) *)

Record icm : Type := mk_icm {
  icm_rw : bool;                 (* self.__rw *)
  icm_msm_path : option string;  (* self.__msm_path *)
  icm_bands : option string;     (* self.bands *)
  icm_patched : list string      (* self.__patched_msm *)
}.

(** [ICMio.__init__] (the file itself is the separate [h5file]) *)
Definition icm_init (readwrite : bool) : icm :=
  mk_icm readwrite None None [].

Local Open Scope string_scope.

Definition band_ids : list string := ["1"; "2"; "3"; "4"; "5"; "6"; "7"; "8"].

Definition select_grp_list : list string :=
  ["ANALYSIS"; "CALIBRATION"; "IRRADIANCE"; "RADIANCE"].

(** The loop of [ICMio.select] without [msm_path]: the local [msm_path]
    and [self.bands] as they evolve. *)
Definition select_search (fid : h5file) (msm_type : string)
  : option string * string :=
  fold_left
    (fun acc ii =>
       fold_left
         (fun (acc : option string * string) name =>
            let grp_path := path_join ("BAND" ++ ii ++ "_" ++ name) msm_type in
            if h5_contains fid grp_path
            then (Some ("BAND%_" ++ name), snd acc ++ ii)
            else acc)
         select_grp_list acc)
    band_ids (None, "").

(** [ICMio.select(msm_type, msm_path)]: the new object state and the
    returned band string. *)
Definition select (st : icm) (fid : h5file) (msm_type : string)
  (msm_path : option string) : except (icm * string) :=
  let found : except (option string * string) :=
    match msm_path with
    | Some p =>
        if starts_with "BAND%" p then
          Ok (Some p,
              fold_left
                (fun bands ii =>
                   if h5_contains fid (path_join (replace_pct p ii) msm_type)
                   then bands ++ ii else bands)
                band_ids "")
        else Err AssertionError
    | None => Ok (select_search fid msm_type)
    end in
  pb <- found ;;
  let '(p, bands) := pb in
  if (0 <? String.length bands)%nat then
    match p with
    | Some p' =>
        Ok (mk_icm (icm_rw st) (Some (path_join p' msm_type)) (Some bands)
              (icm_patched st), bands)
    | None => Err TypeError
    end
  else Ok (mk_icm (icm_rw st) None (Some bands) (icm_patched st), bands).

Definition msm_grp_list : list string := ["OBSERVATIONS"; "ANALYSIS"; ""].

Definition chars (s : string) : list string :=
  map (fun c => String c EmptyString) (list_ascii_of_string s).

(** The objects visited by the double loop of [ICMio.get_msm_data], in
    loop order (paths absent from the product are skipped). *)
Definition icm_found (fid : h5file) (msm_path bands msm_dset : string)
  : list node :=
  flat_map
    (fun ii =>
       flat_map
         (fun dset_grp =>
            match fid (path_join (path_join (replace_pct msm_path ii) dset_grp)
                         msm_dset) with
            | Some n => [n]
            | None => []
            end)
         msm_grp_list)
    (chars bands).

Local Close Scope string_scope.

(** Body of the loop of [ICMio.get_msm_data] for one dataset. *)
Definition icm_read_dset (fill_as_nan : bool) (n : node) : except (list flt) :=
  match n with
  | Group => Err TypeError
  | Dset d =>
      let data := ds_data d in
      if fill_as_nan then
        match ds_fill d with
        | None => Err KeyError
        | Some f =>
            if feq f (Fin fillvalue) then set_nan_where_fill (ds_dtype d) data
            else Ok data
        end
      else Ok data
  end.

(** [ICMio.get_msm_data(msm_dset, fill_as_nan)]; [None] is Python's
    [None], [Some l] the list of arrays. *)
Definition icm_get_msm_data (st : icm) (fid : h5file) (msm_dset : string)
  (fill_as_nan : bool) : except (option (list (list flt))) :=
  match icm_msm_path st with
  | None => Ok None
  | Some p =>
      match icm_bands st with
      | None => Err TypeError
      | Some bands =>
          res <- emap (icm_read_dset fill_as_nan) (icm_found fid p bands msm_dset) ;;
          match res with [] => Ok None | _ => Ok (Some res) end
      end
  end.

(** The methods that read the selected measurement group.  Their bodies
    after the selection guard navigate the group hierarchy of the
    product (group keys, OBSERVATIONS and INSTRUMENT groups); that part
    is kept as a parameter, only the guard is spelled out. *)
Section SelectedMethods.

Variable V : Type.
Variables ref_time_body delta_time_body instrument_settings_body
  housekeeping_body : icm -> string -> h5file -> except (option V).
Variable D : Type.
Variable set_body : icm -> string -> h5file -> string -> D -> except (icm * h5file).

Definition guarded (body : icm -> string -> h5file -> except (option V))
  (st : icm) (fid : h5file) : except (option V) :=
  match icm_msm_path st with
  | None => Ok None
  | Some p => body st p fid
  end.

Definition get_ref_time := guarded ref_time_body.
Definition get_delta_time := guarded delta_time_body.
Definition get_instrument_settings := guarded instrument_settings_body.
Definition get_housekeeping_data := guarded housekeeping_body.

(** [ICMio.set_msm_data]: returns [None], after the [assert self.__rw]. *)
Definition set_msm_data (st : icm) (fid : h5file) (msm_dset : string) (data : D)
  : except (icm * h5file * option unit) :=
  match icm_msm_path st with
  | None => Ok (st, fid, None)
  | Some p =>
      if icm_rw st then
        r <- set_body st p fid msm_dset data ;; Ok (fst r, snd r, None)
      else Err AssertionError
  end.

End SelectedMethods.

(** ** LV2io (lv2_io.py) *)

Local Open Scope string_scope.

(** [LV2io.get_msm_data(name, fill_as_nan)]; the default of
    [fill_as_nan] is [True]. *)
Definition lv2_get_msm_data (fid : h5file) (name : string) (fill_as_nan : bool)
  : except (list flt) :=
  match fid ("/PRODUCT/" ++ name) with
  | None => Err KeyError
  | Some Group => Err TypeError
  | Some (Dset d) =>
      (* float32 is widened to float64 *)
      let t := match ds_dtype d with Float32 => Float64 | t => t end in
      let res := ds_data d in
      if fill_as_nan then
        match ds_fill d with
        | None => Err KeyError
        | Some f =>
            if feq f (Fin fillvalue) then set_nan_where_fill t res else Ok res
        end
      else Ok res
  end.

Definition lv2_get_msm_data_default (fid : h5file) (name : string) :=
  lv2_get_msm_data fid name true.

Definition geo_group : string := "/PRODUCT/SUPPORT_DATA/GEOLOCATIONS".

(** A Python local variable: unbound until its first assignment. *)
Inductive local (A : Type) : Type :=
| Unbound
| Bound (v : A).
Arguments Unbound {A}.
Arguments Bound {A} v.

Definition read_local {A} (x : local A) : except A :=
  match x with Unbound => Err UnboundLocalError | Bound v => Ok v end.

Definition squeeze_node (n : option node) : except (list flt) :=
  match n with
  | None => Err KeyError
  | Some Group => Err TypeError
  | Some (Dset d) => Ok (ds_data d)
  end.

(** [LV2io.get_geo_data(geo_dset)]: [res] is a local that the loop reads
    ([if res is None]) before anything assigns it. *)
Definition lv2_get_geo_data (fid : h5file) (geo_dset : string)
  : except (list flt) :=
  match fid geo_group with
  | None => Err KeyError
  | Some _ =>
      res <- fold_left
               (fun (acc : except (local (option (list flt)))) key =>
                  r <- acc ;;
                  cur <- read_local r ;;
                  v <- squeeze_node (fid (path_join geo_group key)) ;;
                  match cur with
                  | None => Ok (Bound (Some v))
                  | Some a => Ok (Bound (Some (app a v)))
                  end)
               (split_comma geo_dset) (Ok Unbound) ;;
      r <- read_local res ;;
      match r with Some a => Ok a | None => Ok [] end
  end.

Local Close Scope string_scope.

(** ** Small numeric helpers (numpy) *)

Fixpoint sumQ (l : list Q) : Q :=
  match l with [] => 0 | x :: r => x + sumQ r end.

(** [nth] for 2-D arrays stored as a list of rows. *)
Definition at2 {A} (d : A) (m : list (list A)) (i j : nat) : A :=
  nth j (nth i m []) d.

Definition ncols {A} (m : list (list A)) : nat := length (hd [] m).

Definition rectangular {A} (m : list (list A)) : Prop :=
  Forall (fun r => length r = ncols m) m.

(** [np.sum(m, axis=0)] at column [j] and [np.sum(m, axis=1)] at row [i]. *)
Definition col_sum (m : list (list Q)) (j : nat) : Q := sumQ (map (fun r => nth j r 0) m).
Definition row_sum (m : list (list Q)) (i : nat) : Q := sumQ (nth i m []).

(** [x.astype(np.int8)] of a float: truncation toward zero, then the
    two's-complement wrap of the 8-bit integer. *)
Definition Qtrunc (q : Q) : Z :=
  if Qle_bool 0 q then Qfloor q else - Qfloor (- q).

Definition wrap_int8 (z : Z) : Z := ((z + 128) mod 256 - 128)%Z.

Fixpoint mapi_from {A B} (f : nat -> A -> B) (n : nat) (l : list A) : list B :=
  match l with
  | [] => []
  | x :: r => f n x :: mapi_from f (S n) r
  end.

(** [f(j, x)] for the [j]-th element [x] (the column index of a row). *)
Definition mapi {A B} (f : nat -> A -> B) (l : list A) : list B := mapi_from f 0 l.

(** [dpqf[:, idx] = -1]: numpy raises [IndexError] (and assigns
    nothing) when an index is not a column of the array. *)
Definition assign_cols (dpqf : list (list Z)) (c : nat) (idx : list nat)
  : except (list (list Z)) :=
  if existsb (fun j => (c <=? j)%nat) idx then Err IndexError
  else Ok (map (mapi (fun j x => if existsb (Nat.eqb j) idx then (-1)%Z else x)) dpqf).

(** ** S5Pplot.__quality (s5p_plot.py): the categorised map [dpqf] *)

Definition dpqf_of (dpqm : list (list Q)) : list (list Z) :=
  map (map (fun q => wrap_int8 (Qtrunc (q * 10)))) dpqm.

Definition unused_cols (dpqm : list (list Q)) : list nat :=
  filter (fun j => negb (Qle_bool (inject_Z (256 / 4)) (col_sum dpqm j)))
    (seq 0 (ncols dpqm)).

Definition unused_rows (dpqm : list (list Q)) : list nat :=
  filter (fun i => negb (Qle_bool (inject_Z (1000 / 4)) (row_sum dpqm i)))
    (seq 0 (length dpqm)).

(** Both masks; the second one uses [dpqf[:, unused_rows[0]] = -1]. *)
Definition quality_mask (dpqm : list (list Q)) : except (list (list Z)) :=
  let c := ncols dpqm in
  let dpqf := dpqf_of dpqm in
  let uc := unused_cols dpqm in
  dpqf <- (match uc with [] => Ok dpqf | _ => assign_cols dpqf c uc end) ;;
  let ur := unused_rows dpqm in
  match ur with [] => Ok dpqf | _ => assign_cols dpqf c ur end.

(** [dpqf[idx, :] = -1] for row indices [idx] of the array. *)
Definition assign_rows (dpqf : list (list Z)) (idx : list nat) : list (list Z) :=
  mapi (fun i r => if existsb (Nat.eqb i) idx then map (fun _ => (-1)%Z) r else r) dpqf.

(** The row masking that line 288 was meant to perform, as the name
    [unused_rows], the row-sum threshold [1000 // 4] and the column
    masking of line 285 show: [dpqf[unused_rows[0], :] = -1].  It is
    not what [__quality] does. *)
Definition quality_mask_intended (dpqm : list (list Q)) : except (list (list Z)) :=
  let c := ncols dpqm in
  let dpqf := dpqf_of dpqm in
  let uc := unused_cols dpqm in
  dpqf <- (match uc with [] => Ok dpqf | _ => assign_cols dpqf c uc end) ;;
  Ok (assign_rows dpqf (unused_rows dpqm)).

(** 64 rows of ones and one row of zeros, 250 columns: no column is
    unused, row 64 is. *)
Definition c10_map : list (list Q) := repeat (repeat 1 250) 64 ++ [repeat 0 250].

(** ** S5Pplot.__frame (s5p_plot.py): image and colour scale *)

Fixpoint insertQ (x : Q) (l : list Q) : list Q :=
  match l with
  | [] => [x]
  | y :: r => if Qle_bool x y then x :: l else y :: insertQ x r
  end.

Definition sortQ (l : list Q) : list Q := fold_right insertQ [] l.

(** [np.percentile(a, q)] with numpy's default linear interpolation;
    numpy fails on an empty array. *)
Definition percentile (a : list Q) (q : Q) : except Q :=
  match a with
  | [] => Err IndexError
  | _ =>
      let s := sortQ a in
      let n := length s in
      let h := inject_Z (Z.of_nat (n - 1)) * q / 100 in
      let lo := Z.to_nat (Qfloor h) in
      let hi := Nat.min (S lo) (n - 1) in
      let t := h - inject_Z (Z.of_nat lo) in
      let vlo := nth lo s 0 in
      Ok (vlo + t * (nth hi s 0 - vlo))
  end.

Definition finite_values (xs : list flt) : list Q :=
  flat_map (fun x => match x with Fin q => [q] | _ => [] end) xs.

Definition fpow1000 (k : nat) : Q := inject_Z (1000 ^ Z.of_nat k).

(** The [/=] of the branch that rescales by [1000^k]; [k = 0] is the
    branch that does not divide. *)
Definition rescale (k : nat) (x : flt) : flt :=
  match k with O => x | _ => fdivk x (fpow1000 k) end.

Definition rescaleQ (k : nat) (x : Q) : Q :=
  match k with O => x | _ => x / fpow1000 k end.

(** Python's [max(a, b)]: the first argument unless the second is larger. *)
Definition pymax (a b : Q) : Q := if Qle_bool b a then a else b.

Local Open Scope string_scope.

Fixpoint contains (sub s : string) : bool :=
  starts_with sub s ||
  match s with EmptyString => false | String _ s' => contains sub s' end.

(** The branch of [__frame] on [data_unit]: the power of 1000 it
    divides by. *)
Definition frame_scale (data_unit : option string) (p_10 p_90 : Q) : nat :=
  match data_unit with
  | Some u =>
      if contains "electron" u then
        let max_value := pymax (Qabs p_10) (Qabs p_90) in
        if negb (Qle_bool max_value 1000000000) then 3
        else if negb (Qle_bool max_value 1000000) then 2
        else if negb (Qle_bool max_value 1000) then 1
        else 0
      else 0
  | None => 0
  end.

Local Close Scope string_scope.

(** What [__frame] hands to matplotlib. *)
Record frame_fig : Type := mk_frame_fig {
  fig_col : list flt;            (* column plot *)
  fig_image : list (list flt);   (* imshow data *)
  img_vmin : Q;                  (* imshow vmin *)
  img_vmax : Q;                  (* imshow vmax *)
  fig_row : list flt;            (* row plot *)
  cbar_vmin : Q;                 (* Normalize vmin of the colorbar *)
  cbar_vmax : Q                  (* Normalize vmax of the colorbar *)
}.

Definition frame (signal : list (list flt)) (signal_col signal_row : list flt)
  (data_unit : option string) : except frame_fig :=
  let fin := finite_values (concat signal) in
  p_10 <- percentile fin 10 ;;
  p_90 <- percentile fin 90 ;;
  let k := frame_scale data_unit p_10 p_90 in
  let signal := map (map (rescale k)) signal in
  let signal_col := map (rescale k) signal_col in
  let signal_row := map (rescale k) signal_row in
  let p_10 := rescaleQ k p_10 in
  let p_90 := rescaleQ k p_90 in
  Ok (mk_frame_fig signal_col signal p_10 p_90 signal_row p_10 p_90).

(** ** The biweight estimator ([pys5p.biweight])

    Modelled from the spec: the module [pys5p/biweight.py] that
    [s5p_plot.py] and [icm_patch.py] import is not part of the sources,
    so [biweight_location], [biweight_spread], [biweight] and
    [biweight_axis0] follow §4.1 of the spec: the single-pass Tukey
    biweight around the median, with NaN values excluded, an empty
    sample refused, an all-NaN sample giving NaN, and the fallback
    (location = median, spread = 0) when the MAD is zero or fewer than
    two finite values remain.  The square root of the spread is a
    parameter ([sqrtQ]). *)

Definition median (l : list Q) : Q :=
  let s := sortQ l in
  let n := length s in
  if Nat.even n then (nth (n / 2 - 1) s 0 + nth (n / 2) s 0) / 2
  else nth (n / 2) s 0.

(** [a / b] in floating point. *)
Definition fdivQ (a b : Q) : flt :=
  if Qeq_bool b 0 then
    (if Qeq_bool a 0 then NaN else if Qle_bool 0 a then PInf else NInf)
  else Fin (a / b).

Definition fabs (x : flt) : flt :=
  match x with Fin a => Fin (Qabs a) | NInf => PInf | _ => x end.

(** Terms of the weighted sums for a deviation [di] and the scale
    [den = c * MAD + epsilon]; [u = di / den]. *)
Definition bw_u (den di : Q) : Q := di / den.
Definition bw_in_loc (den di : Q) : bool :=
  negb (Qeq_bool den 0) && Qle_bool (Qabs (bw_u den di)) 1.
Definition bw_in_spr (den di : Q) : bool :=
  negb (Qeq_bool den 0) && negb (Qle_bool 1 (Qabs (bw_u den di))).
Definition bw_w (den di : Q) : Q :=
  let u := bw_u den di in (1 - u * u) * (1 - u * u).
Definition loc_num (den di : Q) : Q := if bw_in_loc den di then di * bw_w den di else 0.
Definition loc_den (den di : Q) : Q := if bw_in_loc den di then bw_w den di else 0.
Definition spr_num (den di : Q) : Q :=
  if bw_in_spr den di then di * di * (bw_w den di * bw_w den di) else 0.
Definition spr_den (den di : Q) : Q :=
  let u := bw_u den di in
  if bw_in_spr den di then (1 - u * u) * (1 - 5 * (u * u)) else 0.

(** Default constants [c = 6.0] and [epsilon = 1e-20]. *)
Definition bw_c : Q := 6.
Definition bw_eps : Q := 1 # (10 ^ 20).

Definition biweight_location (c eps : Q) (xs : list flt) : except flt :=
  match xs with
  | [] => Err InvalidInput
  | _ =>
      match finite_values xs with
      | [] => Ok NaN
      | fs =>
          let m0 := median fs in
          let d := map (fun x => x - m0) fs in
          let mad := median (map Qabs d) in
          if Qeq_bool mad 0 || (length fs <? 2)%nat then Ok (Fin m0)
          else
            let den := c * mad + eps in
            Ok (fadd (Fin m0) (fdivQ (sumQ (map (loc_num den) d))
                                     (sumQ (map (loc_den den) d))))
      end
  end.

Section Spread.

Variable sqrtQ : Q -> Q.

Definition biweight_spread (c eps : Q) (xs : list flt) : except flt :=
  match xs with
  | [] => Err InvalidInput
  | _ =>
      match finite_values xs with
      | [] => Ok NaN
      | fs =>
          let m0 := median fs in
          let d := map (fun x => x - m0) fs in
          let mad := median (map Qabs d) in
          if Qeq_bool mad 0 || (length fs <? 2)%nat then Ok (Fin 0)
          else
            let den := c * mad + eps in
            let n := inject_Z (Z.of_nat (length fs)) in
            Ok (fdivQ (sqrtQ (n * sumQ (map (spr_num den) d)))
                      (Qabs (sumQ (map (spr_den den) d))))
      end
  end.

(** [biweight(xs, spread=True)] *)
Definition biweight (c eps : Q) (xs : list flt) : except (flt * flt) :=
  l <- biweight_location c eps xs ;;
  s <- biweight_spread c eps xs ;;
  Ok (l, s).

(** Axis-wise reduction of a 2-D array (a list of rows) along axis 0,
    the way numpy evaluates it: per-column medians of the finite
    values, deviations broadcast over the rows, and the weighted sums
    accumulated row by row with the non-finite and rejected entries
    masked to zero. *)

Fixpoint zipWith {A B C} (f : A -> B -> C) (l1 : list A) (l2 : list B) : list C :=
  match l1, l2 with
  | x :: r1, y :: r2 => f x y :: zipWith f r1 r2
  | _, _ => []
  end.

Definition column (j : nat) (a : list (list flt)) : list flt :=
  map (fun r => nth j r NaN) a.

(** The per-column median of the finite values (spec 4.1: the
    estimator leaves out every value that is not finite). *)
Definition finite_median_axis0 (a : list (list flt)) : list flt :=
  map (fun j => match finite_values (column j a) with
                | [] => NaN
                | fs => Fin (median fs)
                end) (seq 0 (ncols a)).

(** [np.sum(f(a), axis=0)] for an elementwise [f] that may depend on the
    column. *)
Definition sum_axis0 {A} (f : nat -> A -> Q) (a : list (list A)) : list Q :=
  fold_right (fun r acc => zipWith Qplus (mapi f r) acc) (repeat 0 (ncols a)) a.

Definition count_axis0 (a : list (list flt)) : list nat :=
  fold_right (fun r acc => zipWith Nat.add (map (fun x => if isfinite x then 1%nat else 0%nat) r) acc)
    (repeat 0%nat (ncols a)) a.

Definition masked (g : Q -> Q) (x : flt) : Q :=
  match x with Fin di => g di | _ => 0 end.

Definition biweight_axis0 (c eps : Q) (a : list (list flt))
  : except (list flt * list flt) :=
  match a with
  | [] => Err InvalidInput
  | _ =>
      let m0 := finite_median_axis0 a in
      let d := map (fun r => zipWith fsub r m0) a in
      let mad := finite_median_axis0 (map (map fabs) d) in
      let nfin := count_axis0 a in
      let madq := map (fun m => match m with Fin q => q | _ => 0 end) mad in
      let den := map (fun m => c * m + eps) madq in
      let dcol j := nth j den 0 in
      let s_ln := sum_axis0 (fun j => masked (loc_num (dcol j))) d in
      let s_ld := sum_axis0 (fun j => masked (loc_den (dcol j))) d in
      let s_sn := sum_axis0 (fun j => masked (spr_num (dcol j))) d in
      let s_sd := sum_axis0 (fun j => masked (spr_den (dcol j))) d in
      let pick j (fallback : Q -> flt) (full : Q -> flt) : flt :=
        match nth j m0 NaN with
        | Fin m =>
            if Qeq_bool (nth j madq 0) 0 || (nth j nfin 0 <? 2)%nat
            then fallback m else full m
        | _ => NaN
        end in
      let js := seq 0 (ncols a) in
      Ok (map (fun j => pick j (fun m => Fin m)
                 (fun m => fadd (Fin m) (fdivQ (nth j s_ln 0) (nth j s_ld 0)))) js,
          map (fun j => pick j (fun _ => Fin 0)
                 (fun _ => fdivQ (sqrtQ (inject_Z (Z.of_nat (nth j nfin 0%nat)) * nth j s_sn 0))
                                 (Qabs (nth j s_sd 0)))) js)
  end.

End Spread.

(** [biweight(data, axis=1)] (location only) of a 2-D array: one value
    per row. *)
Definition biweight_location_axis1 (c eps : Q) (a : list (list flt)) : except (list flt) :=
  emap (biweight_location c eps) a.

(** ** S5Pplot.draw_signal (s5p_plot.py) *)

(** [np.sort] of the entries that are not NaN: [-inf] first, [+inf]
    last. *)
Definition sort_nonnan (xs : list flt) : list flt :=
  repeat NInf (length (filter (fun x => match x with NInf => true | _ => false end) xs))
  ++ map Fin (sortQ (finite_values xs))
  ++ repeat PInf (length (filter (fun x => match x with PInf => true | _ => false end) xs)).

(** [np.nanmedian] of a 1-D slice: only the NaN entries are left out
    (the infinities take part), an even count gives the mean
    [(lo + hi) / 2] of the two middle values, and an all-NaN slice gives
    NaN. *)
Definition nanmedian1d (xs : list flt) : flt :=
  let s := sort_nonnan xs in
  let n := length s in
  match n with
  | O => NaN
  | _ =>
      if Nat.even n then fdivk (fadd (nth (n / 2 - 1) s NaN) (nth (n / 2) s NaN)) 2
      else nth (n / 2) s NaN
  end.

(** [np.nanmedian(data, axis=1)]: one value per row. *)
Definition nanmedian_axis1 (a : list (list flt)) : list flt :=
  map nanmedian1d a.

(** [np.nanmedian(data, axis=0)]: one value per column. *)
Definition nanmedian_axis0 (a : list (list flt)) : list flt :=
  map (fun j => nanmedian1d (column j a)) (seq 0 (ncols a)).

Definition draw_signal (data : list (list flt)) (data_col data_row : option (list flt))
  (data_unit : option string) : except frame_fig :=
  let data_col := match data_col with None => nanmedian_axis1 data | Some c => c end in
  let data_row := match data_row with None => nanmedian_axis0 data | Some r => r end in
  frame data data_col data_row data_unit.

(** ** S5Pplot.__hist (s5p_plot.py)

    [fig_info] is an [OrderedDict]: an association list whose [update]
    keeps the position of a key already present.  When the caller passes
    a dictionary, [__hist] updates that very object, so the final
    dictionary of a run below is what the caller sees afterwards. *)

Definition odict : Type := list (string * flt).

Definition odict_mem (k : string) (d : odict) : bool :=
  existsb (fun kv => String.eqb (fst kv) k) d.

Fixpoint odict_get (k : string) (d : odict) : except flt :=
  match d with
  | [] => Err KeyError
  | (k', v) :: r => if String.eqb k' k then Ok v else odict_get k r
  end.

Definition odict_update (k : string) (v : flt) (d : odict) : odict :=
  if odict_mem k d
  then map (fun kv => if String.eqb (fst kv) k then (k, v) else kv) d
  else d ++ [(k, v)].

(** The observable effects of a run: the dictionary, the calls of
    [biweight] (named by the local variable they are made on) and the
    histograms drawn (values and range). *)
Record hstate : Type := mk_hstate {
  hs_info : odict;
  hs_calls : list (string * list flt);
  hs_draws : list (string * list flt * (flt * flt))
}.

Definition HM (A : Type) : Type := hstate -> except A * hstate.

Definition hret {A} (a : A) : HM A := fun s => (Ok a, s).
Definition hbind {A B} (m : HM A) (f : A -> HM B) : HM B :=
  fun s => match m s with (Ok a, s') => f a s' | (Err e, s') => (Err e, s') end.
Definition hlift {A} (m : except A) : HM A := fun s => (m, s).

Local Notation "x <~ m ;; k" := (hbind m (fun x => k))
  (at level 61, m at next level, right associativity).

Definition hhas (k : string) : HM bool := fun s => (Ok (odict_mem k (hs_info s)), s).
Definition hget (k : string) : HM flt := fun s => (odict_get k (hs_info s), s).
Definition hset (k : string) (v : flt) : HM unit :=
  fun s => (Ok tt, mk_hstate (odict_update k v (hs_info s)) (hs_calls s) (hs_draws s)).
Definition hcall (name : string) (xs : list flt) : HM unit :=
  fun s => (Ok tt, mk_hstate (hs_info s) (hs_calls s ++ [(name, xs)]) (hs_draws s)).
Definition hdraw (name : string) (xs : list flt) (rng : flt * flt) : HM unit :=
  fun s => (Ok tt, mk_hstate (hs_info s) (hs_calls s) (hs_draws s ++ [(name, xs, rng)])).

Section Hist.

Variable sqrtQ : Q -> Q.

Local Open Scope string_scope.

(** The block of [__hist] that centres one array:
    [if key_m not in fig_info or key_s not in fig_info: ...biweight...;
     x -= fig_info[key_m]]. *)
Definition hist_center (name key_m key_s : string) (xs : list flt) : HM (list flt) :=
  has_m <~ hhas key_m ;;
  has_s <~ hhas key_s ;;
  _ <~ (if negb has_m || negb has_s then
          _ <~ hcall name xs ;;
          ms <~ hlift (biweight sqrtQ bw_c bw_eps xs) ;;
          _ <~ hset key_m (fst ms) ;;
          hset key_s (snd ms)
        else hret tt) ;;
  med <~ hget key_m ;;
  hret (map (fun x => fsub x med) xs).

Definition hist_init (fig_info : option odict) : odict :=
  match fig_info with None => [("num_sigma", Fin 3)] | Some d => d end.

Definition hist_body (signal_in error_in : list (list flt)) : HM unit :=
  signal <~ hist_center "signal" "sign_median" "sign_spread"
              (filter isfinite (concat signal_in)) ;;
  error <~ hist_center "error" "error_median" "error_spread"
             (filter isfinite (concat error_in)) ;;
  ns <~ hget "num_sigma" ;;
  ss <~ hget "sign_spread" ;;
  _ <~ hdraw "signal" signal (fmul (fneg ns) ss, fmul ns ss) ;;
  ns' <~ hget "num_sigma" ;;
  es <~ hget "error_spread" ;;
  hdraw "error" error (fmul (fneg ns') es, fmul ns' es).

(** [S5Pplot.draw_hist(signal, error, fig_info=...)]: outcome and
    effects. *)
Definition draw_hist (signal error : list (list flt)) (fig_info : option odict)
  : except unit * hstate :=
  hist_body signal error (mk_hstate (hist_init fig_info) [] []).

End Hist.

(** What the fill-value conversion is meant to produce from a dataset:
    every element equal to the fill value becomes NaN. *)
Definition fill_to_nan (d : dataset) : list flt :=
  map (fun x => if feq x (Fin fillvalue) then NaN else x) (ds_data d).

(** Sample inputs: a 4x3 array with NaN entries, an outlier and a
    constant column, and a single row with one outlier. *)
Definition bw_example : list (list flt) :=
  [[Fin 1; NaN; Fin 4]; [Fin 2; Fin 5; Fin 4]; [Fin 3; NaN; Fin 4]; [Fin 100; Fin 6; Fin 4]].

Definition c1_data : list (list flt) := [map (fun z => Fin (inject_Z z)) [1; 2; 3; 4; 5; 100]%Z].

(** ** ICMio.set_msm_data: the loop body *)

(** A numpy array handed to [set_msm_data]: its shape and its values in
    row-major order. *)
Record ndarray : Type := mk_ndarray {
  arr_shape : list nat;
  arr_data : list flt
}.

(** [np.squeeze]: the shape without its axes of length one. *)
Definition squeeze_shape (s : list nat) : list nat :=
  filter (fun n => negb (Nat.eqb n 1)) s.

(** [a[np.isnan(a)] = fillvalue] *)
Definition nan_to_fill (a : ndarray) : ndarray :=
  mk_ndarray (arr_shape a)
    (map (fun x => match x with NaN => Fin fillvalue | _ => x end) (arr_data a)).

(** [l[k] = x] for an index in range. *)
Fixpoint list_set {A} (l : list A) (k : nat) (x : A) : list A :=
  match l, k with
  | [], _ => []
  | _ :: r, O => x :: r
  | y :: r, S k' => y :: list_set r k' x
  end.

Definition h5_write (fid : h5file) (path : string) (n : node) : h5file :=
  fun q => if String.eqb q path then Some n else fid q.

(** [dset[0, ...] = a] once the shapes agree: the first
    [prod(shape[1:])] values, in row-major order, become those of [a].
    (The conversion to the dtype of the dataset is not modelled.) *)
Definition write_row0 (d : dataset) (a : ndarray) : dataset :=
  mk_dataset (ds_dtype d) (arr_data a ++ skipn (length (arr_data a)) (ds_data d))
    (ds_fill d).

(** [os.path.join(msm_path.replace('%', ii), dset_grp, msm_dset)] *)
Definition msm_ds_path (msm_path ii dset_grp msm_dset : string) : string :=
  path_join (path_join (replace_pct msm_path ii) dset_grp) msm_dset.

(** What [set_msm_data] changes: [self.__patched_msm], the product and
    the caller's list [data] (whose arrays it modifies in place). *)
Record sstate : Type := mk_sstate {
  ss_patched : list string;
  ss_fid : h5file;
  ss_data : list ndarray
}.

Section SetMsmData.

(** The shape of each dataset of the product (writing does not change
    it). *)
Variable h5_shape : string -> list nat.

(** One pass of the inner loop on [ds_path]: [Ok true] to go on,
    [Ok false] for the [return None] of a shape mismatch. *)
Definition set_one (ds_path : string) (kk : nat) (s : sstate) : except bool * sstate :=
  match ss_fid s ds_path with
  | None => (Ok true, s)
  | Some Group => (Err KeyError, s)        (* a group carries no _FillValue *)
  | Some (Dset d) =>
      match ds_fill d with
      | None => (Err KeyError, s)
      | Some f =>
          match nth_error (ss_data s) kk with
          | None => (Err IndexError, s)
          | Some a =>
              let fill := feq f (Fin fillvalue) in
              let a := if fill then nan_to_fill a else a in
              let data := if fill then list_set (ss_data s) kk a else ss_data s in
              let s := mk_sstate (ss_patched s) (ss_fid s) data in
              if list_eq_dec PeanoNat.Nat.eq_dec (tl (h5_shape ds_path)) (arr_shape a) then
                match h5_shape ds_path with
                | [] | O :: _ => (Err ValueError, s)  (* no row 0 to write *)
                | _ =>
                    (Ok true,
                     mk_sstate (ss_patched s ++ [ds_path])
                       (h5_write (ss_fid s) ds_path (Dset (write_row0 d a))) data)
                end
              else (Ok false, s)
          end
      end
  end.

Fixpoint set_grps (msm_path ii msm_dset : string) (kk : nat) (grps : list string)
  (s : sstate) : except bool * sstate :=
  match grps with
  | [] => (Ok true, s)
  | g :: gs =>
      match set_one (msm_ds_path msm_path ii g msm_dset) kk s with
      | (Ok true, s') => set_grps msm_path ii msm_dset kk gs s'
      | r => r
      end
  end.

(** The outer loop: [kk] counts the bands, whether or not a dataset was
    found in them. *)
Fixpoint set_bands (msm_path msm_dset : string) (kk : nat) (iis : list string)
  (s : sstate) : except unit * sstate :=
  match iis with
  | [] => (Ok tt, s)
  | ii :: r =>
      match set_grps msm_path ii msm_dset kk msm_grp_list s with
      | (Ok true, s') => set_bands msm_path msm_dset (S kk) r s'
      | (Ok false, s') => (Ok tt, s')
      | (Err e, s') => (Err e, s')
      end
  end.

(** [ICMio.set_msm_data(msm_dset, data)]: the outcome ([None] or an
    exception) and the object, product and [data] afterwards. *)
Definition icm_set_msm_data (st : icm) (fid : h5file) (msm_dset : string)
  (data : list ndarray) : except (option unit) * (icm * h5file * list ndarray) :=
  match icm_msm_path st with
  | None => (Ok None, (st, fid, data))
  | Some p =>
      if icm_rw st then
        match icm_bands st with
        | None => (Err TypeError, (st, fid, data))
        | Some b =>
            let '(r, s) := set_bands p msm_dset 0 (chars b)
                             (mk_sstate (icm_patched st) fid data) in
            (match r with Ok _ => Ok None | Err e => Err e end,
             (mk_icm (icm_rw st) (icm_msm_path st) (icm_bands st) (ss_patched s),
              ss_fid s, ss_data s))
        end
      else (Err AssertionError, (st, fid, data))
  end.

End SetMsmData.

(** ** LV2io.get_geo_bounds *)

(** A 4-D dataset read into memory: time x scanline x ground pixel x
    corner. *)
Definition arr4 : Type := list (list (list (list flt))).

(** The h5py release: [setup.py] accepts [h5py>=2.8], and h5py 2 and
    h5py 3 raise different exceptions for an index out of range
    ([ValueError] and [IndexError]). *)
Inductive h5py_version : Type := H5py2 | H5py3.

Definition h5_index_error (v : h5py_version) : pyexc :=
  match v with H5py2 => ValueError | H5py3 => IndexError end.

(** An integer index [i] of h5py: a negative index counts from the end;
    out of range raises the index error of the release. *)
Definition h5idx (v : h5py_version) (len : nat) (i : Z) : except nat :=
  let j := if (i <? 0)%Z then (Z.of_nat len + i)%Z else i in
  if ((0 <=? j)%Z && (j <? Z.of_nat len)%Z)%bool then Ok (Z.to_nat j)
  else Err (h5_index_error v).

(** The extent of each axis. *)
Definition dim0 (b : arr4) : nat := length b.
Definition dim1 (b : arr4) : nat := length (hd [] b).
Definition dim2 (b : arr4) : nat := length (hd [] (hd [] b)).
Definition dim3 (b : arr4) : nat := length (hd [] (hd [] (hd [] b))).

(** [b[t, :, :, c]] *)
Definition slice_tc (v : h5py_version) (b : arr4) (t c : Z) : except (list (list flt)) :=
  t' <- h5idx v (dim0 b) t ;; c' <- h5idx v (dim3 b) c ;;
  Ok (map (map (fun px => nth c' px NaN)) (nth t' b [])).

(** [b[t, i, :, c]] *)
Definition slice_tic (v : h5py_version) (b : arr4) (t i c : Z) : except (list flt) :=
  t' <- h5idx v (dim0 b) t ;; i' <- h5idx v (dim1 b) i ;; c' <- h5idx v (dim3 b) c ;;
  Ok (map (fun px => nth c' px NaN) (nth i' (nth t' b []) [])).

(** [b[t, :, j, c]] *)
Definition slice_tjc (v : h5py_version) (b : arr4) (t j c : Z) : except (list flt) :=
  t' <- h5idx v (dim0 b) t ;; j' <- h5idx v (dim2 b) j ;; c' <- h5idx v (dim3 b) c ;;
  Ok (map (fun row => nth c' (nth j' row []) NaN) (nth t' b [])).

(** [b[t, i, j, c]] *)
Definition elem4 (v : h5py_version) (b : arr4) (t i j c : Z) : except flt :=
  t' <- h5idx v (dim0 b) t ;; i' <- h5idx v (dim1 b) i ;; j' <- h5idx v (dim2 b) j ;;
  c' <- h5idx v (dim3 b) c ;;
  Ok (nth c' (nth j' (nth i' (nth t' b []) []) []) NaN).

(** numpy broadcasting of one axis of extent [len] to [k]. *)
Definition bcast {A} (k : nat) (l : list A) : except (list A) :=
  if Nat.eqb (length l) k then Ok l
  else match l with [x] => Ok (repeat x k) | _ => Err ValueError end.

(** [np.empty((n+1, m+1))]: [None] marks an entry never assigned. *)
Definition empty_grid (n m : nat) : list (list (option flt)) :=
  repeat (repeat None (S m)) (S n).

(** [res[:-1, :-1] = blk] on an [(n+1) x (m+1)] grid. *)
Definition set_block (n m : nat) (blk : list (list flt)) (res : list (list (option flt)))
  : except (list (list (option flt))) :=
  rows <- bcast n blk ;; rows <- emap (bcast m) rows ;;
  Ok (mapi (fun i r => mapi (fun j x =>
        if ((i <? n) && (j <? m))%bool then Some (nth j (nth i rows []) NaN) else x) r) res).

(** [res[-1, :-1] = v] *)
Definition set_last_row (n m : nat) (v : list flt) (res : list (list (option flt)))
  : except (list (list (option flt))) :=
  v <- bcast m v ;;
  Ok (mapi (fun i r => mapi (fun j x =>
        if (Nat.eqb i n && (j <? m))%bool then Some (nth j v NaN) else x) r) res).

(** [res[:-1, -1] = v] *)
Definition set_last_col (n m : nat) (v : list flt) (res : list (list (option flt)))
  : except (list (list (option flt))) :=
  v <- bcast n v ;;
  Ok (mapi (fun i r => mapi (fun j x =>
        if ((i <? n) && Nat.eqb j m)%bool then Some (nth i v NaN) else x) r) res).

(** [res[-1, -1] = x] *)
Definition set_corner (n m : nat) (x : flt) (res : list (list (option flt)))
  : list (list (option flt)) :=
  mapi (fun i r => mapi (fun j y => if (Nat.eqb i n && Nat.eqb j m)%bool then Some x else y) r) res.

(** The four assignments of [get_geo_bounds] for one of the two bounds
    datasets, with [_sz] taken from [latitude_bounds]. *)
Definition bounds_mesh (ver : h5py_version) (n m : nat) (b : arr4)
  : except (list (list (option flt))) :=
  let res := empty_grid n m in
  blk <- slice_tc ver b 0 0 ;; res <- set_block n m blk res ;;
  v <- slice_tic ver b 0 (-1) 1 ;; res <- set_last_row n m v res ;;
  v <- slice_tjc ver b 0 (-1) 1 ;; res <- set_last_col n m v res ;;
  x <- elem4 ver b 0 (-1) (-1) 2 ;; Ok (set_corner n m x res).

(** [LV2io.get_geo_bounds()] on the contents of [latitude_bounds] and
    [longitude_bounds], read with h5py release [ver]: the meshes of the
    returned dictionary. *)
Definition get_geo_bounds (ver : h5py_version) (lat lon : arr4)
  : except (list (list (option flt)) * list (list (option flt))) :=
  let n := dim1 lat in
  let m := dim2 lat in
  la <- bounds_mesh ver n m lat ;;
  lo <- bounds_mesh ver n m lon ;;
  Ok (la, lo).

Definition ss_ext (P : string -> Prop) (s s' : sstate) : Prop :=
  exists new, ss_patched s' = ss_patched s ++ new
    /\ (forall q, ~ In q new -> ss_fid s' q = ss_fid s q)
    /\ Forall P new
    /\ length (ss_data s') = length (ss_data s).

Definition icm_found_paths (fid : h5file) (msm_path bands msm_dset : string) : list string :=
  flat_map (fun ii =>
     map (fun g => msm_ds_path msm_path ii g msm_dset)
       (filter (fun g => h5_contains fid (msm_ds_path msm_path ii g msm_dset)) msm_grp_list))
    (chars bands).

Definition h5_values (fid : h5file) (q : string) : list flt :=
  match fid q with Some (Dset d) => ds_data d | _ => [] end.

Definition band_roundtrip_ok (h5_shape : string -> list nat) (fid : h5file)
  (p dset ii : string) : Prop :=
  exists g d f sh,
    filter (fun g => h5_contains fid (msm_ds_path p ii g dset)) msm_grp_list = [g]
    /\ fid (msm_ds_path p ii g dset) = Some (Dset d) /\ ds_fill d = Some f /\ ds_wf d = true
    /\ (feq f (Fin fillvalue) = true -> ~ In NaN (ds_data d))
    /\ (forall q, In (Fin q) (ds_data d) -> Qred q = q)
    /\ h5_shape (msm_ds_path p ii g dset) = 1%nat :: sh /\ ~ In 1%nat sh.

Local Open Scope string_scope.
Definition rt_path : string := "BAND1_RADIANCE/BACKGROUND_MODE_1063/OBSERVATIONS/signal".
Local Close Scope string_scope.

Local Open Scope string_scope.
Definition rt_fid : h5file :=
  fun q => if String.eqb q rt_path
           then Some (Dset (mk_dataset Float32 [Fin 1; Fin fillvalue; Fin 3]
                              (Some (Fin fillvalue))))
           else None.
Local Close Scope string_scope.

Local Open Scope string_scope.
Definition rt_st : icm :=
  mk_icm true (Some "BAND%_RADIANCE/BACKGROUND_MODE_1063") (Some "1") [].
Local Close Scope string_scope.

(** Corner [c] of pixel [(i, j)] at time 0. *)
Definition geo_at (b : arr4) (i j c : nat) : flt :=
  nth c (nth j (nth i (nth 0 b []) []) []) NaN.

Definition geo_mesh_expected (b : arr4) (n m : nat) : list (list (option flt)) :=
  map (fun i => map (fun j => Some
     (if (i <? n)%nat then if (j <? m)%nat then geo_at b i j 0 else geo_at b i (m - 1) 1
      else if (j <? m)%nat then geo_at b (n - 1) j 1 else geo_at b (n - 1) (m - 1) 2))
     (seq 0 (S m))) (seq 0 (S n)).

Definition geo_shape_ok (b : arr4) (n m : nat) : Prop :=
  (1 <= dim0 b)%nat /\ dim1 b = n /\ dim2 b = m /\ (3 <= dim3 b)%nat
  /\ Forall (fun row => length row = m) (hd [] b).

(** One time step, one scanline, two ground pixels, four corners. *)
Definition geo_example : arr4 :=
  [[[[Fin 1; Fin 2; Fin 3; Fin 4]; [Fin 5; Fin 6; Fin 7; Fin 8]]]].

(** One time step, one scanline, two ground pixels, two corners only. *)
Definition geo_two_corners : arr4 :=
  [[[[Fin 1; Fin 2]; [Fin 5; Fin 6]]]].

(** [(dpqf >= 0) & (dpqf < thres)] for one entry. *)
Definition below_thres (thres : Q) (x : Z) : bool :=
  (0 <=? x)%Z && negb (Qle_bool thres (inject_Z x)).

(** [np.sum(mask, axis=1)]: one count per row. *)
Definition count_axis1 (thres : Q) (dpqf : list (list Z)) : list nat :=
  map (fun r => length (filter (below_thres thres) r)) dpqf.

(** [np.sum(mask, axis=0)]: one count per column. *)
Definition count_axis0_q (thres : Q) (dpqf : list (list Z)) : list nat :=
  map (fun j => length (filter (fun r => below_thres thres (nth j r 0%Z)) dpqf))
    (seq 0 (ncols dpqf)).

(** [np.sum(mask)] *)
Definition count_all (thres : Q) (dpqf : list (list Z)) : nat :=
  length (filter (below_thres thres) (concat dpqf)).

(** What [__quality] draws: the two column profiles, the image, the two
    row profiles and the dictionary of [__fig_info]. *)
Record quality_fig : Type := mk_quality_fig {
  q_col_01 : list nat;
  q_col_08 : list nat;
  q_image : list (list Z);
  q_row_01 : list nat;
  q_row_08 : list nat;
  q_info : list (string * Q)
}.

(** [S5Pplot.__quality(dpqm, low_thres, high_thres)]; [draw_quality]
    passes the defaults 0.1 and 0.8. *)
Definition quality (dpqm : list (list Q)) (low_thres high_thres : Q) : except quality_fig :=
  let thres_min := 10 * low_thres in
  let thres_max := 10 * high_thres in
  dpqf <- quality_mask dpqm ;;
  Ok (mk_quality_fig (count_axis1 thres_min dpqf) (count_axis1 thres_max dpqf) dpqf
        (count_axis0_q thres_min dpqf) (count_axis0_q thres_max dpqf)
        [("thres_01"%string, low_thres);
         ("dpqf_01"%string, inject_Z (Z.of_nat (count_all thres_min dpqf)));
         ("thres_08"%string, high_thres);
         ("dpqf_08"%string, inject_Z (Z.of_nat (count_all thres_max dpqf)))]).

Definition draw_quality (dpqm : list (list Q)) : except quality_fig :=
  quality dpqm (1 # 10) (8 # 10).

(** A 2x3 map: column 2 sums to 60, below 64, and row 1 sums to 130,
    below 250, so columns 2 and 1 are masked. *)
Definition qual_example : list (list Q) :=
  [[200; 100; 30]; [1 # 2; 199 # 2; 30]].


(** [ii = str(self.bands[0])], the first statement after the selection
    guard of [get_ref_time], [get_delta_time], [get_instrument_settings]
    and [get_housekeeping_data]. *)
Definition first_band (st : icm) : except string :=
  match icm_bands st with
  | None => Err TypeError
  | Some EmptyString => Err IndexError
  | Some (String c _) => Ok (String c EmptyString)
  end.

(** The states of an [ICMio] object over a product: opened, then
    changed by successful calls of [select] and by calls of
    [set_msm_data], whatever their outcome ([get_msm_data] and the other
    readers leave the object as it is). *)
Inductive icm_reachable : icm -> h5file -> Prop :=
| reach_init (readwrite : bool) (fid : h5file) :
    icm_reachable (icm_init readwrite) fid
| reach_select (st : icm) (fid : h5file) (msm_type : string) (msm_path : option string)
    (st' : icm) (bands : string) :
    icm_reachable st fid -> select st fid msm_type msm_path = Ok (st', bands) ->
    icm_reachable st' fid
| reach_set (h5_shape : string -> list nat) (st : icm) (fid : h5file) (msm_dset : string)
    (data : list ndarray) (r : except (option unit)) (st' : icm) (fid' : h5file)
    (data' : list ndarray) :
    icm_reachable st fid ->
    icm_set_msm_data h5_shape st fid msm_dset data = (r, (st', fid', data')) ->
    icm_reachable st' fid'.

Definition selection_has_band (st : icm) : Prop :=
  icm_msm_path st = None \/ exists c rest, icm_bands st = Some (String c rest).

Local Open Scope string_scope.
(** A product with the group [BAND1_RADIANCE/BACKGROUND_MODE_1063]. *)
Definition inv_fid : h5file :=
  fun q => if String.eqb q "BAND1_RADIANCE/BACKGROUND_MODE_1063" then Some Group else None.
Local Close Scope string_scope.

Local Open Scope string_scope.
(** Two small signal and error arrays with NaN entries. *)
Definition hist_sig : list (list flt) := [[Fin 1; Fin 2; NaN]; [Fin 4; Fin 3; PInf]].
Local Close Scope string_scope.

Local Open Scope string_scope.
Definition hist_err : list (list flt) := [[Fin 1; NaN]; [Fin 1; Fin 2]].
Local Close Scope string_scope.

Local Open Scope string_scope.
(** Bands 1 and 2 selected; only band 2 holds the dataset, of shape
    (1, 2). *)
Definition mis_path : string := "BAND2_RADIANCE/BACKGROUND_MODE_1063/OBSERVATIONS/signal".

Definition mis_fid : h5file :=
  fun q => if String.eqb q mis_path
           then Some (Dset (mk_dataset Float32 [Fin 1; Fin fillvalue] (Some (Fin fillvalue))))
           else None.

Definition mis_st : icm :=
  mk_icm true (Some "BAND%_RADIANCE/BACKGROUND_MODE_1063") (Some "12") [].

(** [data[0]] has the shape (2,) of the dataset, [data[1]] has not. *)
Definition mis_data : list ndarray :=
  [mk_ndarray [2%nat] [Fin 7; Fin 8]; mk_ndarray [3%nat] [Fin 1; NaN; Fin 3]].
Local Close Scope string_scope.

(** * Properties *)

(** ** Generic lemmas *)

Lemma emap_Forall2 {A B} (f : A -> except B) (l : list A) (r : list B) :
  emap f l = Ok r -> Forall2 (fun x y => f x = Ok y) l r.
Proof.
  revert r; induction l as [|x l IH]; intros r H; simpl in H.
  - injection H as <-. constructor.
  - destruct (f x) as [y|e] eqn:Fx; simpl in H; [|discriminate].
    destruct (emap f l) as [ys|e] eqn:Fl; simpl in H; [|discriminate].
    injection H as <-. constructor; auto.
Qed.

Lemma fold_left_err {A B} (f : except A -> B -> except A) (e : pyexc) (l : list B) :
  (forall x, f (Err e) x = Err e) -> fold_left f l (Err e) = Err e.
Proof.
  intros Hf; induction l as [|x l IH]; simpl; [reflexivity|].
  rewrite Hf; exact IH.
Qed.

(** ** LV2io.get_geo_data *)

Lemma split_comma_aux_nonempty (s : string) (cur : list ascii) :
  split_comma_aux s cur <> [].
Proof.
  revert cur; induction s as [|c s IH]; intros cur; simpl.
  - discriminate.
  - destruct (Ascii.eqb c ","%char); [discriminate|apply IH].
Qed.

(** ** ICMio.select and the selection guard *)

Lemma select_no_band_unselects (st st' : icm) (fid : h5file) (t : string)
  (p : option string) :
  select st fid t p = Ok (st', EmptyString) -> icm_msm_path st' = None.
Proof.
  unfold select; intros H.
  match type of H with
  | ebind ?found _ = _ => destruct found as [[p' bands]|e]; simpl in H; [|discriminate]
  end.
  destruct (0 <? String.length bands)%nat eqn:E.
  - destruct p' as [p'|]; [|discriminate].
    injection H as <- ->. discriminate E.
  - injection H as <- _. reflexivity.
Qed.

(** ** Fill values *)

Lemma int_fill_not_sentinel (w : int_width) (f : flt) :
  int_fits (width_bits w) f = true -> feq f (Fin fillvalue) = false.
Proof.
  destruct f as [q| | |]; simpl; try reflexivity.
  intros H. apply andb_prop in H as [H1 H3].
  destruct (Qeq_bool q fillvalue) eqn:E; [|reflexivity].
  apply Qeq_bool_iff in E. apply Qle_bool_iff in H3.
  assert (Hb : fillvalue <= inject_Z (2 ^ (Z.of_nat (width_bits w) - 1) - 1)).
  { apply Qle_trans with q; [apply Qle_lteq; right; symmetry; exact E|exact H3]. }
  apply Qle_bool_iff in Hb. destruct w; vm_compute in Hb; discriminate Hb.
Qed.

Lemma set_nan_where_fill_float (t : dtype) (xs : list flt) :
  is_int_dtype t = false ->
  set_nan_where_fill t xs = Ok (map (fun x => if feq x (Fin fillvalue) then NaN else x) xs).
Proof. unfold set_nan_where_fill; intros ->; reflexivity. Qed.

Lemma ds_wf_fill (d : dataset) (w : int_width) (f : flt) :
  ds_wf d = true -> ds_dtype d = IntT w -> ds_fill d = Some f ->
  feq f (Fin fillvalue) = false.
Proof.
  unfold ds_wf; intros H T F; rewrite T, F in H.
  apply andb_prop in H as [_ H]. eapply int_fill_not_sentinel; exact H.
Qed.

(** ** Claims on the accessors *)

(** C3: with [fill_as_nan] set ([ICMio.get_msm_data(..., fill_as_nan=True)],
    and [LV2io.get_msm_data] at its default), a dataset whose
    [_FillValue] equals [0x1.ep+122] has each element equal to it
    replaced by NaN and every other element kept; with the flag off, or
    a different [_FillValue], the data are returned unchanged. *)
Theorem fill_as_nan_replaces_fillvalue :
  (forall d f, ds_wf d = true -> ds_fill d = Some f ->
     icm_read_dset true (Dset d)
     = Ok (if feq f (Fin fillvalue) then fill_to_nan d else ds_data d))
  /\ (forall d, icm_read_dset false (Dset d) = Ok (ds_data d))
  /\ (forall st fid name flag arrs,
        icm_get_msm_data st fid name flag = Ok (Some arrs) ->
        exists p bands, icm_msm_path st = Some p /\ icm_bands st = Some bands
          /\ Forall2 (fun n a => icm_read_dset flag n = Ok a)
                     (icm_found fid p bands name) arrs)
  /\ (forall fid name d f, fid ("/PRODUCT/" ++ name)%string = Some (Dset d) ->
        ds_wf d = true -> ds_fill d = Some f ->
        lv2_get_msm_data_default fid name
        = Ok (if feq f (Fin fillvalue) then fill_to_nan d else ds_data d))
  /\ (forall fid name d, fid ("/PRODUCT/" ++ name)%string = Some (Dset d) ->
        lv2_get_msm_data fid name false = Ok (ds_data d)).
Proof.
  split; [|split; [|split; [|split]]].
  - intros d f Hwf Hf. unfold icm_read_dset. rewrite Hf.
    destruct (feq f (Fin fillvalue)) eqn:E; [|reflexivity].
    destruct (ds_dtype d) as [| |w] eqn:T.
    + apply set_nan_where_fill_float; reflexivity.
    + apply set_nan_where_fill_float; reflexivity.
    + rewrite (ds_wf_fill d w f Hwf T Hf) in E. discriminate E.
  - reflexivity.
  - intros st fid name flag arrs H. unfold icm_get_msm_data in H.
    destruct (icm_msm_path st) as [p|]; [|discriminate].
    destruct (icm_bands st) as [bands|]; [|discriminate].
    exists p, bands. split; [reflexivity|split; [reflexivity|]].
    destruct (emap (icm_read_dset flag) (icm_found fid p bands name)) as [res|e] eqn:Em;
      simpl in H; [|discriminate].
    destruct res as [|r0 rs]; [discriminate|]. injection H as <-.
    apply emap_Forall2; exact Em.
  - intros fid name d f Hd Hwf Hf. unfold lv2_get_msm_data_default, lv2_get_msm_data.
    rewrite Hd, Hf.
    destruct (feq f (Fin fillvalue)) eqn:E; [|reflexivity].
    destruct (ds_dtype d) as [| |w] eqn:T.
    + apply set_nan_where_fill_float; reflexivity.
    + apply set_nan_where_fill_float; reflexivity.
    + rewrite (ds_wf_fill d w f Hwf T Hf) in E. discriminate E.
  - intros fid name d Hd. unfold lv2_get_msm_data. rewrite Hd. reflexivity.
Qed.

(** C8 (as amended): [LV2io.get_geo_data] never returns a value.  When
    the product has the GEOLOCATIONS group, the first pass of the loop
    reads the unassigned local [res] and raises [UnboundLocalError];
    without that group the lookup [self.fid[...]] fails first with
    [KeyError]. *)
Theorem lv2_get_geo_data_never_returns (fid : h5file) (geo_dset : string) :
  lv2_get_geo_data fid geo_dset
  = if h5_contains fid geo_group then Err UnboundLocalError else Err KeyError.
Proof.
  unfold lv2_get_geo_data, h5_contains.
  destruct (fid geo_group) as [n|]; [|reflexivity].
  unfold split_comma.
  destruct (split_comma_aux geo_dset []) as [|k ks] eqn:E.
  - exfalso; exact (split_comma_aux_nonempty _ _ E).
  - simpl. rewrite fold_left_err; reflexivity.
Qed.

(** C8: the claim as stated fails on a product without the GEOLOCATIONS
    group, where [get_geo_data] raises [KeyError], not
    [UnboundLocalError]. *)
Lemma lv2_get_geo_data_no_group_keyerror :
  lv2_get_geo_data (fun _ => None) "satellite_latitude,satellite_longitude"%string
  = Err KeyError /\ Err KeyError <> (Err UnboundLocalError : except (list flt)).
Proof. split; [reflexivity|discriminate]. Qed.

(** C9: on an [ICMio] object on which [select] was never called, or
    whose last [select] found no band (returned ['']), [get_ref_time],
    [get_delta_time], [get_instrument_settings], [get_housekeeping_data],
    [get_msm_data] and [set_msm_data] return [None] without raising,
    whatever the product holds (they read nothing from it) and whatever
    their bodies after the guard do. *)
Theorem icm_unselected_methods_return_none (st : icm) :
  (exists rw, st = icm_init rw)
  \/ (exists st0 fid0 msm_type msm_path,
        select st0 fid0 msm_type msm_path = Ok (st, EmptyString)) ->
  forall (V : Type) (b1 b2 b3 b4 : icm -> string -> h5file -> except (option V))
    (D : Type) (sb : icm -> string -> h5file -> string -> D -> except (icm * h5file))
    (fid : h5file) (name : string) (flag : bool) (data : D),
    get_ref_time V b1 st fid = Ok None
    /\ get_delta_time V b2 st fid = Ok None
    /\ get_instrument_settings V b3 st fid = Ok None
    /\ get_housekeeping_data V b4 st fid = Ok None
    /\ icm_get_msm_data st fid name flag = Ok None
    /\ set_msm_data D sb st fid name data = Ok (st, fid, None).
Proof.
  intros Hst.
  assert (Hp : icm_msm_path st = None).
  { destruct Hst as [[rw ->]|(st0 & fid0 & t & p & H)]; [reflexivity|].
    exact (select_no_band_unselects _ _ _ _ _ H). }
  intros. unfold get_ref_time, get_delta_time, get_instrument_settings,
    get_housekeeping_data, guarded, icm_get_msm_data, set_msm_data.
  rewrite Hp. repeat split.
Qed.

Lemma icm_unselected_methods_return_none_witness :
  icm_get_msm_data (icm_init false) (fun _ => None) "signal"%string true = Ok None.
Proof.
  refine (proj1 (proj2 (proj2 (proj2 (proj2
    (icm_unselected_methods_return_none (icm_init false) _ unit
       (fun _ _ _ => Ok None) (fun _ _ _ => Ok None) (fun _ _ _ => Ok None)
       (fun _ _ _ => Ok None) unit (fun st _ fid _ _ => Ok (st, fid))
       (fun _ => None) "signal"%string true tt)))))).
  left. exists false. reflexivity.
Defined.

(** ** Lists indexed by position *)

Lemma length_mapi_from {A B} (f : nat -> A -> B) (n : nat) (l : list A) :
  length (mapi_from f n l) = length l.
Proof. revert n; induction l; intros n; simpl; auto. Qed.

Lemma nth_mapi_from {A B} (f : nat -> A -> B) (l : list A) (dA : A) (dB : B) :
  forall n j, (j < length l)%nat ->
  nth j (mapi_from f n l) dB = f (n + j)%nat (nth j l dA).
Proof.
  induction l as [|x l IH]; intros n j Hj; simpl in *; [lia|].
  destruct j as [|j].
  - rewrite Nat.add_0_r. reflexivity.
  - rewrite IH by lia. f_equal. lia.
Qed.

Lemma nth_mapi {A B} (f : nat -> A -> B) (l : list A) (dA : A) (dB : B) (j : nat) :
  (j < length l)%nat -> nth j (mapi f l) dB = f j (nth j l dA).
Proof. intros Hj. unfold mapi. rewrite (nth_mapi_from f l dA dB 0 j Hj). reflexivity. Qed.

Lemma nth_rows_map {A B} (h : list A -> list B) (m : list (list A)) (i : nat) :
  h [] = [] -> nth i (map h m) [] = h (nth i m []).
Proof.
  intros H0. rewrite <- H0 at 1. apply map_nth.
Qed.

Lemma Forall_nth_rows {A} (P : list A -> Prop) (m : list (list A)) (i : nat) :
  Forall P m -> (i < length m)%nat -> P (nth i m []).
Proof.
  intros HF Hi. rewrite Forall_forall in HF. apply HF. apply nth_In; exact Hi.
Qed.

(** ** S5Pplot.__quality *)

(** One masking step [if idx.size > 0: dpqf[:, idx] = -1]. *)
Lemma assign_step (m : list (list Z)) (c : nat) (idx : list nat) :
  Forall (fun r => length r = c) m ->
  match (match idx with [] => Ok m | _ => assign_cols m c idx end) with
  | Err e => e = IndexError /\ existsb (fun j => (c <=? j)%nat) idx = true
  | Ok m' =>
      existsb (fun j => (c <=? j)%nat) idx = false
      /\ length m' = length m
      /\ Forall (fun r => length r = c) m'
      /\ forall i j, (i < length m)%nat -> (j < c)%nat ->
           at2 0%Z m' i j = if existsb (Nat.eqb j) idx then (-1)%Z else at2 0%Z m i j
  end.
Proof.
  intros Hr. destruct idx as [|j0 idx'].
  - split; [reflexivity|split; [reflexivity|split; [exact Hr|]]].
    intros; reflexivity.
  - unfold assign_cols.
    destruct (existsb (fun j => (c <=? j)%nat) (j0 :: idx')) eqn:E.
    + split; reflexivity.
    + split; [reflexivity|split; [apply length_map|split]].
      * apply Forall_map. eapply Forall_impl; [|exact Hr].
        intros r Hlen. unfold mapi. rewrite length_mapi_from. exact Hlen.
      * intros i j Hi Hj. unfold at2.
        rewrite nth_rows_map by reflexivity.
        assert (Hl : length (nth i m []) = c) by (apply (Forall_nth_rows _ m i Hr Hi)).
        rewrite (nth_mapi _ _ 0%Z 0%Z) by lia. reflexivity.
Qed.

Lemma unused_cols_in_range (dpqm : list (list Q)) :
  existsb (fun j => (ncols dpqm <=? j)%nat) (unused_cols dpqm) = false.
Proof.
  apply not_true_iff_false; intros H.
  apply existsb_exists in H as [j [Hin Hle]].
  unfold unused_cols in Hin. apply filter_In in Hin as [Hin _].
  apply in_seq in Hin. apply Nat.leb_le in Hle. lia.
Qed.

Lemma dpqf_of_shape (dpqm : list (list Q)) :
  rectangular dpqm ->
  length (dpqf_of dpqm) = length dpqm
  /\ Forall (fun r => length r = ncols dpqm) (dpqf_of dpqm)
  /\ forall i j, (i < length dpqm)%nat -> (j < ncols dpqm)%nat ->
       at2 0%Z (dpqf_of dpqm) i j = wrap_int8 (Qtrunc (at2 0 dpqm i j * 10)).
Proof.
  unfold rectangular, dpqf_of; intros Hr.
  split; [apply length_map|split].
  - apply Forall_map. eapply Forall_impl; [|exact Hr].
    intros r Hl. rewrite length_map. exact Hl.
  - intros i j Hi Hj. unfold at2.
    rewrite nth_rows_map by reflexivity.
    assert (Hl : length (nth i dpqm []) = ncols dpqm) by (apply (Forall_nth_rows _ dpqm i Hr Hi)).
    rewrite (nth_indep _ _ (wrap_int8 (Qtrunc (0 * 10)))) by (rewrite length_map; lia).
    apply (map_nth (fun q => wrap_int8 (Qtrunc (q * 10)))).
Qed.

(** C10 (code bug): in [S5Pplot.draw_quality], every row index [r]
    whose row sum is below 250 is used as a column index:
    [dpqf[:, r] = -1].  The assignment raises [IndexError] exactly when
    such an [r] is not a column index of the map.  Otherwise the rows
    are never masked as rows: the entry [(i, j)] of the categorised map
    is -1 exactly when column [j] is an unused column or [j] is the index
    of an unused row, and keeps its category [int8(10 * dpqm[i, j])]
    otherwise.  The row masking the code was meant to do gives another
    result: on the 2x1 map of ones [__quality] raises [IndexError] where
    row masking returns the map all -1, and on [c10_map] column 64 is
    masked while row 64, the unused row, keeps its categories. *)
Theorem quality_row_mask_targets_columns :
  (forall dpqm : list (list Q),
   rectangular dpqm ->
   (quality_mask dpqm = Err IndexError
    <-> existsb (fun r => (ncols dpqm <=? r)%nat) (unused_rows dpqm) = true)
   /\ (forall dpqf, quality_mask dpqm = Ok dpqf ->
         length dpqf = length dpqm
         /\ forall i j, (i < length dpqm)%nat -> (j < ncols dpqm)%nat ->
              at2 0%Z dpqf i j
              = if existsb (Nat.eqb j) (unused_cols dpqm)
                   || existsb (Nat.eqb j) (unused_rows dpqm)
                then (-1)%Z else wrap_int8 (Qtrunc (at2 0 dpqm i j * 10))))
  /\ (quality_mask [[1]; [1]] = Err IndexError
      /\ quality_mask_intended [[1]; [1]] = Ok [[-1]; [-1]]%Z)
  /\ match quality_mask c10_map, quality_mask_intended c10_map with
     | Ok m, Ok m' =>
         at2 0%Z m 0 64 = (-1)%Z /\ at2 0%Z m' 0 64 = 10%Z
         /\ at2 0%Z m 64 0 = 0%Z /\ at2 0%Z m' 64 0 = (-1)%Z
     | _, _ => False
     end.
Proof.
  split; [|split; [split; vm_compute; reflexivity|vm_compute; repeat split]].
  intros dpqm Hr.
  destruct (dpqf_of_shape dpqm Hr) as (L0 & F0 & E0).
  pose proof (assign_step (dpqf_of dpqm) (ncols dpqm) (unused_cols dpqm) F0) as S1.
  unfold quality_mask.
  destruct (match unused_cols dpqm with
            | [] => Ok (dpqf_of dpqm)
            | _ => assign_cols (dpqf_of dpqm) (ncols dpqm) (unused_cols dpqm)
            end) as [m1|e1] eqn:M1.
  2:{ destruct S1 as [_ S1]. rewrite unused_cols_in_range in S1. discriminate S1. }
  destruct S1 as (_ & L1 & F1 & E1).
  simpl.
  pose proof (assign_step m1 (ncols dpqm) (unused_rows dpqm) F1) as S2.
  destruct (match unused_rows dpqm with
            | [] => Ok m1
            | _ => assign_cols m1 (ncols dpqm) (unused_rows dpqm)
            end) as [m2|e2] eqn:M2.
  - destruct S2 as (X2 & L2 & F2 & E2).
    split.
    + rewrite X2. split; discriminate.
    + intros dpqf H. injection H as <-.
      split; [congruence|].
      intros i j Hi Hj.
      rewrite E2 by congruence. rewrite E1 by congruence. rewrite E0 by assumption.
      destruct (existsb (Nat.eqb j) (unused_cols dpqm));
        destruct (existsb (Nat.eqb j) (unused_rows dpqm)); reflexivity.
  - destruct S2 as [-> X2]. split.
    + split; [intros _; exact X2|reflexivity].
    + intros dpqf H; discriminate H.
Qed.

Lemma quality_row_mask_targets_columns_witness :
  rectangular [[1; 0]; [0; 1]] /\ quality_mask [[1; 0]; [0; 1]] = Ok [[-1; -1]; [-1; -1]]%Z
  /\ at2 0%Z [[-1; -1]; [-1; -1]]%Z 0 1
     = (if existsb (Nat.eqb 1) (unused_cols [[1; 0]; [0; 1]])
           || existsb (Nat.eqb 1) (unused_rows [[1; 0]; [0; 1]])
        then (-1)%Z else wrap_int8 (Qtrunc (at2 0 [[1; 0]; [0; 1]] 0 1 * 10))).
Proof.
  assert (R : rectangular [[1; 0]; [0; 1]]).
  { unfold rectangular; repeat constructor. }
  assert (Q2 : quality_mask [[1; 0]; [0; 1]] = Ok [[-1; -1]; [-1; -1]]%Z) by reflexivity.
  split; [exact R|split; [exact Q2|]].
  apply (proj2 (proj2 (proj1 quality_row_mask_targets_columns _ R) _ Q2)); unfold ncols; cbn; lia.
Defined.

(** ** S5Pplot.__frame *)

Lemma percentile_nonempty (a : list Q) (q : Q) :
  a <> [] -> exists v, percentile a q = Ok v.
Proof. destruct a; [congruence|]. intros _. eexists; reflexivity. Qed.

Lemma frame_scale_le3 (u : option string) (p q : Q) : (frame_scale u p q <= 3)%nat.
Proof.
  unfold frame_scale.
  destruct u; [|lia].
  destruct (contains _ _); [|lia].
  repeat match goal with |- context [if ?b then _ else _] => destruct b end; lia.
Qed.

(** C7: the image drawn by [S5Pplot.draw_signal] and its colorbar are
    both scaled to [p10, p90], the 10th and 90th percentiles of the
    finite values of [data]; when the 'electron' rescaling applies, the
    data, the profiles and both bounds are divided by the same [1000^k]
    ([k <= 3], [k = 0] meaning no division).  Without finite values
    [np.percentile] raises and no figure is drawn. *)
Theorem draw_signal_color_scale (data : list (list flt))
  (data_col data_row : option (list flt)) (data_unit : option string) :
  (finite_values (concat data) = [] ->
     draw_signal data data_col data_row data_unit = Err IndexError)
  /\ (finite_values (concat data) <> [] ->
       exists fig, draw_signal data data_col data_row data_unit = Ok fig)
  /\ (forall fig, draw_signal data data_col data_row data_unit = Ok fig ->
       exists p_10 p_90,
         percentile (finite_values (concat data)) 10 = Ok p_10
         /\ percentile (finite_values (concat data)) 90 = Ok p_90
         /\ let k := frame_scale data_unit p_10 p_90 in
            (k <= 3)%nat
            /\ img_vmin fig = rescaleQ k p_10 /\ img_vmax fig = rescaleQ k p_90
            /\ cbar_vmin fig = img_vmin fig /\ cbar_vmax fig = img_vmax fig
            /\ fig_image fig = map (map (rescale k)) data).
Proof.
  unfold draw_signal, frame.
  set (fin := finite_values (concat data)).
  split; [|split].
  - intros H. rewrite H. reflexivity.
  - intros H.
    destruct (percentile_nonempty fin 10 H) as [p10 E10].
    destruct (percentile_nonempty fin 90 H) as [p90 E90].
    rewrite E10, E90. eexists; reflexivity.
  - intros fig H.
    destruct (percentile fin 10) as [p10|e] eqn:E10; simpl in H; [|discriminate].
    destruct (percentile fin 90) as [p90|e] eqn:E90; simpl in H; [|discriminate].
    injection H as <-.
    exists p10, p90. split; [reflexivity|split; [reflexivity|]].
    simpl. split; [apply frame_scale_le3|].
    repeat split.
Qed.

(** ** The biweight estimator: column-wise facts of the axis-0 reduction *)

Lemma Qplus_0_l_syn (q : Q) : 0 + q = q.
Proof. destruct q as [n d]. unfold Qplus. simpl. rewrite Z.mul_1_r. reflexivity. Qed.

Lemma nth_map_seq {A} (F : nat -> A) (C j : nat) (d : A) :
  (j < C)%nat -> nth j (map F (seq 0 C)) d = F j.
Proof.
  intros Hj. rewrite (nth_indep _ d (F 0%nat)) by (rewrite length_map, length_seq; lia).
  rewrite map_nth, seq_nth by lia. reflexivity.
Qed.

Lemma nth_map_in {A B} (h : A -> B) (l : list A) (j : nat) (dA : A) (dB : B) :
  (j < length l)%nat -> nth j (map h l) dB = h (nth j l dA).
Proof.
  intros Hj. rewrite (nth_indep _ dB (h dA)) by (rewrite length_map; lia).
  apply map_nth.
Qed.

Lemma length_zipWith {A B C} (f : A -> B -> C) l1 l2 :
  length (zipWith f l1 l2) = Nat.min (length l1) (length l2).
Proof. revert l2; induction l1; intros [|y l2]; simpl; auto. Qed.

Lemma nth_zipWith {A B C} (f : A -> B -> C) l1 l2 j dA dB dC :
  (j < length l1)%nat -> (j < length l2)%nat ->
  nth j (zipWith f l1 l2) dC = f (nth j l1 dA) (nth j l2 dB).
Proof.
  revert l2 j; induction l1 as [|x l1 IH]; intros [|y l2] j H1 H2; simpl in *; try lia.
  destruct j; [reflexivity|]. apply IH; lia.
Qed.

Lemma sum_rows_nth {A} (f : nat -> A -> Q) (dA : A) (C j : nat) (a : list (list A)) :
  Forall (fun r => length r = C) a -> (j < C)%nat ->
  length (fold_right (fun r acc => zipWith Qplus (mapi f r) acc) (repeat 0 C) a) = C
  /\ nth j (fold_right (fun r acc => zipWith Qplus (mapi f r) acc) (repeat 0 C) a) 0
     = sumQ (map (fun r => f j (nth j r dA)) a).
Proof.
  intros HF Hj. induction HF as [|r a Hr HF [IHl IHn]]; simpl.
  - split; [apply repeat_length|]. apply nth_repeat.
  - assert (Hm : length (mapi f r) = C) by (unfold mapi; rewrite length_mapi_from; exact Hr).
    split.
    + rewrite length_zipWith, Hm, IHl. apply Nat.min_id.
    + rewrite (nth_zipWith _ _ _ _ 0 0) by lia.
      rewrite IHn. rewrite (nth_mapi _ _ dA) by lia. reflexivity.
Qed.

Lemma count_rows_nth (C j : nat) (a : list (list flt)) :
  Forall (fun r => length r = C) a -> (j < C)%nat ->
  length (fold_right (fun r acc => zipWith Nat.add
            (map (fun x => if isfinite x then 1%nat else 0%nat) r) acc)
            (repeat 0%nat C) a) = C
  /\ nth j (fold_right (fun r acc => zipWith Nat.add
            (map (fun x => if isfinite x then 1%nat else 0%nat) r) acc)
            (repeat 0%nat C) a) 0%nat
     = length (finite_values (column j a)).
Proof.
  intros HF Hj. induction HF as [|r a Hr HF [IHl IHn]]; simpl.
  - split; [apply repeat_length|]. apply nth_repeat.
  - split.
    + rewrite length_zipWith, length_map, Hr, IHl. apply Nat.min_id.
    + rewrite (nth_zipWith _ _ _ _ 0%nat 0%nat) by (rewrite ?length_map; lia).
      rewrite IHn. rewrite (nth_map_in _ _ _ NaN) by lia.
      destruct (nth j r NaN); reflexivity.
Qed.

Lemma finite_values_cons (x : flt) (l : list flt) :
  finite_values (x :: l) = match x with Fin q => q :: finite_values l | _ => finite_values l end.
Proof. destruct x; reflexivity. Qed.

Lemma finite_values_sub_abs (m : Q) (l : list flt) :
  finite_values (map fabs (map (fun x => fsub x (Fin m)) l))
  = map Qabs (map (fun q => q - m) (finite_values l)).
Proof.
  induction l as [|x l IH]; [reflexivity|].
  cbn [map]. rewrite !finite_values_cons.
  destruct x; cbn [fabs fsub fadd fneg map]; rewrite IH; reflexivity.
Qed.

Lemma sumQ_masked_sub (g : Q -> Q) (m : Q) (l : list flt) :
  sumQ (map (fun x => masked g (fsub x (Fin m))) l)
  = sumQ (map g (map (fun q => q - m) (finite_values l))).
Proof.
  induction l as [|x l IH]; [reflexivity|].
  cbn [map]. rewrite finite_values_cons.
  destruct x; cbn [fsub fadd fneg masked map sumQ]; rewrite IH; try reflexivity; apply Qplus_0_l_syn.
Qed.

Lemma column_map_rows (h : list flt -> list flt) (j : nat) (a : list (list flt)) (H : forall r, nth j (h r) NaN = nth j r NaN) :
  column j (map h a) = column j a.
Proof.
  unfold column. rewrite map_map. apply map_ext. exact H.
Qed.

Lemma finite_median_axis0_nth (a : list (list flt)) (j : nat) :
  (j < ncols a)%nat ->
  nth j (finite_median_axis0 a) NaN
  = match finite_values (column j a) with [] => NaN | fs => Fin (median fs) end.
Proof. intros Hj. unfold finite_median_axis0. apply nth_map_seq; exact Hj. Qed.

Lemma length_finite_median_axis0 (a : list (list flt)) : length (finite_median_axis0 a) = ncols a.
Proof. unfold finite_median_axis0. rewrite length_map, length_seq. reflexivity. Qed.

(** The deviations [d = a - m0] broadcast over the rows, and [|d|]. *)
Lemma deviations_shape (a : list (list flt)) (m0 : list flt) (j : nat) :
  a <> [] -> rectangular a -> length m0 = ncols a -> (j < ncols a)%nat ->
  let d := map (fun r => zipWith fsub r m0) a in
  ncols d = ncols a
  /\ Forall (fun r => length r = ncols a) d
  /\ column j d = map (fun x => fsub x (nth j m0 NaN)) (column j a)
  /\ ncols (map (map fabs) d) = ncols a
  /\ column j (map (map fabs) d) = map fabs (column j d).
Proof.
  intros Hne Hr Hm Hj d.
  assert (Fd : Forall (fun r => length r = ncols a) d).
  { unfold d. apply Forall_map. eapply Forall_impl; [|exact Hr].
    intros r Hl. rewrite length_zipWith, Hl, Hm. apply Nat.min_id. }
  assert (Nd : ncols d = ncols a).
  { destruct a as [|r0 rs]; [congruence|]. unfold d, ncols. simpl.
    rewrite length_zipWith, Hm. inversion Hr as [|? ? Hl0 _]. rewrite Hl0.
    apply Nat.min_id. }
  split; [exact Nd|split; [exact Fd|split]].
  - unfold d, column. rewrite !map_map. apply map_ext_in.
    intros r Hin. unfold rectangular in Hr. rewrite Forall_forall in Hr. specialize (Hr r Hin).
    apply (nth_zipWith _ _ _ _ NaN NaN); lia.
  - split.
    + unfold ncols in *. destruct d as [|r0 rs]; simpl in *; [lia|].
      rewrite length_map. exact Nd.
    + unfold column. rewrite map_map, map_map. apply map_ext_in.
      intros r Hin. rewrite Forall_forall in Fd. specialize (Fd r Hin).
      apply (nth_map_in _ _ _ NaN). lia.
Qed.

Lemma sum_axis0_nth (f : nat -> flt -> Q) (a : list (list flt)) (C j : nat) :
  Forall (fun r => length r = C) a -> ncols a = C -> (j < C)%nat ->
  nth j (sum_axis0 f a) 0 = sumQ (map (f j) (column j a)).
Proof.
  intros HF HC Hj. unfold sum_axis0. rewrite HC.
  rewrite (proj2 (sum_rows_nth f NaN C j a HF Hj)).
  unfold column. rewrite map_map. reflexivity.
Qed.

Lemma count_axis0_nth (a : list (list flt)) (j : nat) :
  rectangular a -> (j < ncols a)%nat ->
  nth j (count_axis0 a) 0%nat = length (finite_values (column j a)).
Proof.
  intros HF Hj. unfold count_axis0. exact (proj2 (count_rows_nth _ j a HF Hj)).
Qed.

Lemma column_nonempty (a : list (list flt)) (j : nat) : a <> [] -> column j a <> [].
Proof. destruct a; [congruence|]. intros _. discriminate. Qed.
Lemma biweight_axis0_column (sqrtQ : Q -> Q) (c eps : Q) (a : list (list flt)) (j : nat) :
  rectangular a -> (j < ncols a)%nat ->
  match biweight_axis0 sqrtQ c eps a with
  | Ok (ls, ss) => biweight sqrtQ c eps (column j a) = Ok (nth j ls NaN, nth j ss NaN)
  | Err e => biweight sqrtQ c eps (column j a) = Err e
  end.
Proof.
  intros Hr Hj.
  assert (Hne : a <> []) by (intros ->; unfold ncols in Hj; simpl in Hj; lia).
  pose proof (column_nonempty a j Hne) as Hcne.
  unfold biweight_axis0.
  destruct a as [|r0 rs]; [congruence|].
  cbv beta zeta iota.
  remember (r0 :: rs) as a eqn:Ea. clear Ea r0 rs.
  rewrite 2!nth_map_seq by exact Hj. cbv beta.
  pose proof (deviations_shape a (finite_median_axis0 a) j Hne Hr (length_finite_median_axis0 a) Hj) as H.
  cbv zeta in H. destruct H as (Nd & Fd & Cd & Ne & Ce).
  set (m0 := finite_median_axis0 a) in *.
  set (d := map (fun r => zipWith fsub r m0) a) in *.
  set (mad := finite_median_axis0 (map (map fabs) d)) in *.
  set (madq := map (fun m => match m with Fin q => q | _ => 0 end) mad) in *.
  set (den := map (fun m => c * m + eps) madq) in *.
  assert (Lmad : length mad = ncols a) by (unfold mad; rewrite length_finite_median_axis0; exact Ne).
  assert (Lmadq : length madq = ncols a) by (unfold madq; rewrite length_map; exact Lmad).
  assert (Eden : nth j den 0 = c * nth j madq 0 + eps)
    by (unfold den; apply (nth_map_in (fun m => c * m + eps) madq j 0 0); lia).
  assert (Emadq : nth j madq 0 = match nth j mad NaN with Fin q => q | _ => 0 end)
    by (unfold madq; apply (nth_map_in (fun m => match m with Fin q => q | _ => 0 end) mad j NaN 0); lia).
  assert (Emad : nth j mad NaN = match finite_values (map fabs (map (fun x => fsub x (nth j m0 NaN)) (column j a))) with [] => NaN | fs => Fin (median fs) end)
    by (unfold mad; rewrite finite_median_axis0_nth by lia; rewrite Ce, Cd; reflexivity).
  rewrite !(sum_axis0_nth _ d (ncols a) j Fd Nd Hj).
  rewrite Cd, (count_axis0_nth a j Hr Hj), Eden, Emadq, Emad.
  assert (Em0 : nth j m0 NaN = match finite_values (column j a) with [] => NaN | fs => Fin (median fs) end)
    by (unfold m0; apply finite_median_axis0_nth; exact Hj).
  rewrite Em0. clearbody m0 d mad madq den.
  unfold biweight, biweight_location, biweight_spread.
  destruct (column j a) as [|x0 xs0] eqn:Ec; [congruence|].
  destruct (finite_values (x0 :: xs0)) as [|q fs] eqn:Ef; [reflexivity|].
  rewrite finite_values_sub_abs, Ef.
  rewrite !(map_map (fun x => fsub x _) (masked _)), !sumQ_masked_sub, Ef.
  destruct (Qeq_bool _ 0 || _)%bool; reflexivity.
Qed.

(** ** [OrderedDict] facts *)

Lemma odict_get_map_same (k : string) (v : flt) (d : odict) :
  odict_mem k d = true ->
  odict_get k (map (fun kv => if String.eqb (fst kv) k then (k, v) else kv) d) = Ok v.
Proof.
  induction d as [|[k' v'] d IH]; simpl; [discriminate|].
  destruct (String.eqb k' k) eqn:E; simpl.
  - rewrite String.eqb_refl. reflexivity.
  - rewrite E. exact IH.
Qed.

Lemma odict_get_app_absent (k : string) (v : flt) (d : odict) :
  odict_mem k d = false -> odict_get k (d ++ [(k, v)]) = Ok v.
Proof.
  induction d as [|[k' v'] d IH]; simpl.
  - rewrite String.eqb_refl. reflexivity.
  - destruct (String.eqb k' k); simpl; [discriminate|]. exact IH.
Qed.

Lemma odict_get_update_same (k : string) (v : flt) (d : odict) :
  odict_get k (odict_update k v d) = Ok v.
Proof.
  unfold odict_update. destruct (odict_mem k d) eqn:E.
  - apply odict_get_map_same; exact E.
  - apply odict_get_app_absent; exact E.
Qed.

Lemma odict_get_update_other (k k' : string) (v : flt) (d : odict) :
  String.eqb k' k = false -> odict_get k (odict_update k' v d) = odict_get k d.
Proof.
  intros Hne. unfold odict_update. destruct (odict_mem k' d).
  - induction d as [|[k1 v1] d IH]; simpl; [reflexivity|].
    destruct (String.eqb k1 k') eqn:E1; simpl.
    + apply String.eqb_eq in E1. subst k1. rewrite Hne. exact IH.
    + destruct (String.eqb k1 k); [reflexivity|exact IH].
  - induction d as [|[k1 v1] d IH]; simpl; [rewrite Hne; reflexivity|].
    destruct (String.eqb k1 k); [reflexivity|exact IH].
Qed.

Lemma odict_mem_map_keys (k k' : string) (v : flt) (d : odict) :
  odict_mem k (map (fun kv => if String.eqb (fst kv) k' then (k', v) else kv) d) = odict_mem k d.
Proof.
  induction d as [|[k1 v1] d IH]; simpl; [reflexivity|].
  destruct (String.eqb k1 k') eqn:E1; simpl; rewrite IH; [|reflexivity].
  apply String.eqb_eq in E1. subst k1. reflexivity.
Qed.

Lemma odict_mem_update (k k' : string) (v : flt) (d : odict) :
  odict_mem k (odict_update k' v d) = (String.eqb k' k || odict_mem k d)%bool.
Proof.
  unfold odict_update. destruct (odict_mem k' d) eqn:E.
  - rewrite odict_mem_map_keys. destruct (String.eqb k' k) eqn:Ek; [|reflexivity].
    apply String.eqb_eq in Ek. subst k'. exact E.
  - unfold odict_mem in *. rewrite existsb_app. simpl. rewrite orb_false_r. apply orb_comm.
Qed.

Lemma odict_mem_get (k : string) (d : odict) :
  odict_mem k d = true -> exists v, odict_get k d = Ok v.
Proof.
  induction d as [|[k' v'] d IH]; simpl; [discriminate|].
  destruct (String.eqb k' k); simpl; [eauto|exact IH].
Qed.

(** ** [S5Pplot.__hist]: one centring block in closed form *)

Lemma hist_center_run (sqrtQ : Q -> Q) (name km ks : string) (xs : list flt) (s : hstate) :
  String.eqb ks km = false ->
  hist_center sqrtQ name km ks xs s =
  if (odict_mem km (hs_info s) && odict_mem ks (hs_info s))%bool
  then (ebind (odict_get km (hs_info s)) (fun med => Ok (map (fun x => fsub x med) xs)), s)
  else match biweight sqrtQ bw_c bw_eps xs with
       | Ok (m, sp) =>
           (Ok (map (fun x => fsub x m) xs),
            mk_hstate (odict_update ks sp (odict_update km m (hs_info s)))
                      (hs_calls s ++ [(name, xs)]) (hs_draws s))
       | Err e => (Err e, mk_hstate (hs_info s) (hs_calls s ++ [(name, xs)]) (hs_draws s))
       end.
Proof.
  intros Hne. unfold hist_center, hbind, hhas, hget, hret, hcall, hlift, hset. simpl.
  destruct (odict_mem km (hs_info s)), (odict_mem ks (hs_info s)); simpl.
  - destruct (odict_get km (hs_info s)); reflexivity.
  - destruct (biweight sqrtQ bw_c bw_eps xs) as [[m sp]|e]; simpl; [|reflexivity].
    rewrite odict_get_update_other by exact Hne. rewrite odict_get_update_same. reflexivity.
  - destruct (biweight sqrtQ bw_c bw_eps xs) as [[m sp]|e]; simpl; [|reflexivity].
    rewrite odict_get_update_other by exact Hne. rewrite odict_get_update_same. reflexivity.
  - destruct (biweight sqrtQ bw_c bw_eps xs) as [[m sp]|e]; simpl; [|reflexivity].
    rewrite odict_get_update_other by exact Hne. rewrite odict_get_update_same. reflexivity.
Qed.

Lemma hist_body_effects (sqrtQ : Q -> Q) (sig err : list (list flt)) (s0 : hstate) :
  let r := hist_body sqrtQ sig err s0 in
  match hist_center sqrtQ "signal"%string "sign_median"%string "sign_spread"%string (filter isfinite (concat sig)) s0 with
  | (Err e, s1) => r = (Err e, s1)
  | (Ok sg, s1) =>
      match hist_center sqrtQ "error"%string "error_median"%string "error_spread"%string (filter isfinite (concat err)) s1 with
      | (Err e, s2) => r = (Err e, s2)
      | (Ok er, s2) =>
          hs_info (snd r) = hs_info s2 /\ hs_calls (snd r) = hs_calls s2
          /\ (fst r = Ok tt -> exists r1 r2,
                hs_draws (snd r) = app (hs_draws s2) [("signal"%string, sg, r1); ("error"%string, er, r2)])
      end
  end.
Proof.
  intros r. unfold r, hist_body, hbind. cbv beta.
  destruct (hist_center sqrtQ "signal" "sign_median" "sign_spread" _ s0) as [[sg|e] s1]; [|reflexivity].
  destruct (hist_center sqrtQ "error" "error_median" "error_spread" _ s1) as [[er|e] s2]; [|reflexivity].
  unfold hget, hdraw, hret. simpl.
  destruct (odict_get "num_sigma" (hs_info s2)) as [ns|e]; simpl; [|split; [reflexivity|split; [reflexivity|discriminate]]].
  destruct (odict_get "sign_spread" (hs_info s2)) as [ss|e]; simpl; [|split; [reflexivity|split; [reflexivity|discriminate]]].
  destruct (odict_get "error_spread" (hs_info s2)) as [es|e]; simpl; [|split; [reflexivity|split; [reflexivity|discriminate]]].
  repeat split. intros _. do 2 eexists. rewrite <- app_assoc. reflexivity.
Qed.

Ltac odict_simpl :=
  repeat first [ rewrite odict_get_update_same
               | rewrite odict_get_update_other by reflexivity
               | rewrite odict_mem_update ];
  cbn [String.eqb Ascii.eqb Bool.eqb orb andb] in *.

(** C2: in [S5Pplot.__hist] (called by [draw_hist]), for the signal
    array: when [fig_info] lacks ['sign_median'] or ['sign_spread'] (a
    [None] [fig_info] becomes [{'num_sigma': 3}]), [biweight] is called
    on the finite values of the flattened signal; its (location, spread)
    pair is stored under the two keys, and the histogrammed values are
    those finite values minus the stored location.  When both keys are
    present no such call is made, the two entries are left as given and
    the values are shifted by the given ['sign_median'].  The same holds
    for the error array with ['error_median'] and ['error_spread'],
    provided the signal block returned: when [biweight] raises on the
    signal (no finite value), [__hist] stops there.  Histograms are only
    drawn when the whole call returns. *)
Theorem draw_hist_biweight_centering (sqrtQ : Q -> Q) (sig err : list (list flt))
  (fig_info : option odict) :
  let info0 := hist_init fig_info in
  let sv := filter isfinite (concat sig) in
  let ev := filter isfinite (concat err) in
  let res := fst (draw_hist sqrtQ sig err fig_info) in
  let st := snd (draw_hist sqrtQ sig err fig_info) in
  (if (odict_mem "sign_median" info0 && odict_mem "sign_spread" info0)%bool
   then ~ In "signal"%string (map fst (hs_calls st))
        /\ odict_get "sign_median" (hs_info st) = odict_get "sign_median" info0
        /\ odict_get "sign_spread" (hs_info st) = odict_get "sign_spread" info0
        /\ (res = Ok tt -> exists m rng, odict_get "sign_median" info0 = Ok m
              /\ nth_error (hs_draws st) 0 = Some ("signal"%string, map (fun x => fsub x m) sv, rng))
   else In ("signal"%string, sv) (hs_calls st)
        /\ match biweight sqrtQ bw_c bw_eps sv with
           | Ok (m, s) =>
               odict_get "sign_median" (hs_info st) = Ok m
               /\ odict_get "sign_spread" (hs_info st) = Ok s
               /\ (res = Ok tt -> exists rng,
                     nth_error (hs_draws st) 0 = Some ("signal"%string, map (fun x => fsub x m) sv, rng))
           | Err e => res = Err e
           end)
  /\ ((odict_mem "sign_median" info0 && odict_mem "sign_spread" info0)%bool = true
      \/ (exists p, biweight sqrtQ bw_c bw_eps sv = Ok p) ->
      if (odict_mem "error_median" info0 && odict_mem "error_spread" info0)%bool
      then ~ In "error"%string (map fst (hs_calls st))
           /\ odict_get "error_median" (hs_info st) = odict_get "error_median" info0
           /\ odict_get "error_spread" (hs_info st) = odict_get "error_spread" info0
           /\ (res = Ok tt -> exists m rng, odict_get "error_median" info0 = Ok m
                 /\ nth_error (hs_draws st) 1 = Some ("error"%string, map (fun x => fsub x m) ev, rng))
      else In ("error"%string, ev) (hs_calls st)
           /\ match biweight sqrtQ bw_c bw_eps ev with
              | Ok (m, s) =>
                  odict_get "error_median" (hs_info st) = Ok m
                  /\ odict_get "error_spread" (hs_info st) = Ok s
                  /\ (res = Ok tt -> exists rng,
                        nth_error (hs_draws st) 1 = Some ("error"%string, map (fun x => fsub x m) ev, rng))
              | Err e => res = Err e
              end).
Proof.
  cbv zeta. unfold draw_hist. generalize (hist_init fig_info) as info0. intros info0.
  pose proof (hist_body_effects sqrtQ sig err (mk_hstate info0 [] [])) as HB. cbv zeta in HB.
  revert HB. destruct (hist_body sqrtQ sig err (mk_hstate info0 [] [])) as [res st].
  cbn [fst snd].
  generalize (filter isfinite (concat sig)) as sv. generalize (filter isfinite (concat err)) as ev.
  intros ev sv HB.
  rewrite hist_center_run in HB by reflexivity. cbn [hs_info hs_calls hs_draws] in HB.
  destruct (odict_mem "sign_median" info0 && odict_mem "sign_spread" info0)%bool eqn:Hs.
  - apply andb_prop in Hs. destruct Hs as [Hs1 _].
    destruct (odict_mem_get _ _ Hs1) as [m Hm]. rewrite Hm in HB. cbn [ebind] in HB; cbn beta iota in HB; cbn [hs_info hs_calls hs_draws] in HB.
    rewrite hist_center_run in HB by reflexivity. cbn [hs_info hs_calls hs_draws] in HB.
    destruct (odict_mem "error_median" info0 && odict_mem "error_spread" info0)%bool eqn:He.
    + apply andb_prop in He. destruct He as [He1 _].
      destruct (odict_mem_get _ _ He1) as [m' Hm']. rewrite Hm' in HB. cbn [ebind] in HB; cbn beta iota in HB; cbn [hs_info hs_calls hs_draws] in HB.
      destruct HB as (Hi & Hc & Hd). rewrite Hi, Hc.
      split.
      * split; [simpl; tauto|]. split; [reflexivity|]. split; [reflexivity|].
        intros Hr. destruct (Hd Hr) as (r1 & r2 & ->). exists m, r1. split; [exact Hm|reflexivity].
      * intros _. split; [simpl; tauto|]. split; [reflexivity|]. split; [reflexivity|].
        intros Hr. destruct (Hd Hr) as (r1 & r2 & ->). exists m', r2. split; [exact Hm'|reflexivity].
    + destruct (biweight sqrtQ bw_c bw_eps ev) as [[m' s']|e] eqn:Hbe; cbn beta iota in HB; cbn [hs_info hs_calls hs_draws] in HB.
      * destruct HB as (Hi & Hc & Hd). rewrite Hi, Hc.
        split.
        -- split; [simpl; intuition discriminate|].
           split; [odict_simpl; reflexivity|]. split; [odict_simpl; reflexivity|].
           intros Hr. destruct (Hd Hr) as (r1 & r2 & ->). exists m, r1. split; [exact Hm|reflexivity].
        -- intros _. split; [simpl; auto|].
           split; [odict_simpl; reflexivity|]. split; [odict_simpl; reflexivity|].
           intros Hr. destruct (Hd Hr) as (r1 & r2 & ->). exists r2. reflexivity.
      * injection HB as -> ->. cbn [hs_info hs_calls hs_draws].
        split.
        -- split; [simpl; intuition discriminate|].
           split; [reflexivity|]. split; [reflexivity|]. discriminate.
        -- intros _. split; [simpl; auto|reflexivity].
  - destruct (biweight sqrtQ bw_c bw_eps sv) as [[m s]|e] eqn:Hb; cbn beta iota in HB; cbn [hs_info hs_calls hs_draws] in HB.
    + rewrite hist_center_run in HB by reflexivity. cbn [hs_info hs_calls hs_draws] in HB.
      rewrite !odict_mem_update in HB. cbn [String.eqb Ascii.eqb Bool.eqb orb andb] in HB.
      destruct (odict_mem "error_median" info0 && odict_mem "error_spread" info0)%bool eqn:He.
      * apply andb_prop in He. destruct He as [He1 _].
        destruct (odict_mem_get _ _ He1) as [m' Hm'].
        rewrite odict_get_update_other, odict_get_update_other, Hm' in HB by reflexivity.
        cbn [ebind] in HB; cbn beta iota in HB; cbn [hs_info hs_calls hs_draws] in HB.
        destruct HB as (Hi & Hc & Hd). rewrite Hi, Hc.
        split.
        -- split; [simpl; auto|].
           split; [odict_simpl; reflexivity|]. split; [odict_simpl; reflexivity|].
           intros Hr. destruct (Hd Hr) as (r1 & r2 & ->). exists r1. reflexivity.
        -- intros _. split; [simpl; intuition discriminate|].
           split; [odict_simpl; reflexivity|]. split; [odict_simpl; reflexivity|].
           intros Hr. destruct (Hd Hr) as (r1 & r2 & ->). exists m', r2. split; [exact Hm'|reflexivity].
      * destruct (biweight sqrtQ bw_c bw_eps ev) as [[m' s']|e] eqn:Hbe; cbn beta iota in HB; cbn [hs_info hs_calls hs_draws] in HB.
        -- destruct HB as (Hi & Hc & Hd). rewrite Hi, Hc.
           split.
           ++ split; [simpl; auto|].
              split; [odict_simpl; reflexivity|]. split; [odict_simpl; reflexivity|].
              intros Hr. destruct (Hd Hr) as (r1 & r2 & ->). exists r1. reflexivity.
           ++ intros _. split; [simpl; auto|].
              split; [odict_simpl; reflexivity|]. split; [odict_simpl; reflexivity|].
              intros Hr. destruct (Hd Hr) as (r1 & r2 & ->). exists r2. reflexivity.
        -- injection HB as -> ->. cbn [hs_info hs_calls hs_draws].
           split.
           ++ split; [simpl; auto|].
              split; [odict_simpl; reflexivity|]. split; [odict_simpl; reflexivity|]. discriminate.
           ++ intros _. split; [simpl; auto|reflexivity].
    + injection HB as -> ->. cbn [hs_info hs_calls hs_draws].
      split.
      * split; [simpl; auto|reflexivity].
      * intros [H|[p H]]; discriminate.
Qed.

(** ** The biweight estimator: totality and NaN handling *)

Lemma finite_values_map_Fin (l : list Q) : finite_values (map Fin l) = l.
Proof. induction l as [|q l IH]; [reflexivity|]. simpl. f_equal. exact IH. Qed.

Lemma biweight_nonempty_ok (sqrtQ : Q -> Q) (c eps : Q) (xs : list flt) :
  xs <> [] -> exists l s, biweight sqrtQ c eps xs = Ok (l, s).
Proof.
  destruct xs as [|x xs]; [congruence|]. intros _.
  unfold biweight, biweight_location, biweight_spread. cbv zeta.
  destruct (finite_values (x :: xs)) as [|q fs]; [simpl; eauto|].
  destruct (Qeq_bool (median (map Qabs (map (fun y => y - median (q :: fs)) (q :: fs)))) 0
            || (length (q :: fs) <? 2)%nat)%bool; simpl; eauto.
Qed.

Lemma biweight_axis0_ok (sqrtQ : Q -> Q) (c eps : Q) (a : list (list flt)) :
  a <> [] -> exists ls ss, biweight_axis0 sqrtQ c eps a = Ok (ls, ss)
                           /\ length ls = ncols a /\ length ss = ncols a.
Proof.
  destruct a as [|r a]; [congruence|]. intros _.
  do 2 eexists. split; [reflexivity|]. rewrite !length_map, length_seq. split; reflexivity.
Qed.

Lemma biweight_all_nan (sqrtQ : Q -> Q) (c eps : Q) (xs : list flt) :
  xs <> [] -> finite_values xs = [] -> biweight sqrtQ c eps xs = Ok (NaN, NaN).
Proof.
  destruct xs as [|x xs]; [congruence|]. intros _ Hf.
  unfold biweight, biweight_location, biweight_spread. rewrite Hf. reflexivity.
Qed.

Lemma biweight_finite_part (sqrtQ : Q -> Q) (c eps : Q) (xs : list flt) :
  finite_values xs <> [] ->
  biweight sqrtQ c eps xs = biweight sqrtQ c eps (map Fin (finite_values xs)).
Proof.
  intros Hf. destruct xs as [|x xs]; [contradiction|].
  unfold biweight, biweight_location, biweight_spread.
  rewrite !finite_values_map_Fin.
  destruct (finite_values (x :: xs)) as [|q fs]; [contradiction|].
  reflexivity.
Qed.

(** C4: the estimator fails with the invalid-input error on an empty
    sample (for a 2-D array reduced along axis 0: no rows), and returns
    a result for every non-empty sample, NaN values included. *)
Theorem biweight_empty_fails_nonempty_total (sqrtQ : Q -> Q) (c eps : Q) :
  biweight_location c eps [] = Err InvalidInput
  /\ biweight sqrtQ c eps [] = Err InvalidInput
  /\ biweight_axis0 sqrtQ c eps [] = Err InvalidInput
  /\ (forall xs, xs <> [] -> exists l s, biweight sqrtQ c eps xs = Ok (l, s))
  /\ (forall a, a <> [] -> exists ls ss, biweight_axis0 sqrtQ c eps a = Ok (ls, ss)).
Proof.
  split; [reflexivity|]. split; [reflexivity|]. split; [reflexivity|]. split.
  - apply biweight_nonempty_ok.
  - intros a Ha. destruct (biweight_axis0_ok sqrtQ c eps a Ha) as (ls & ss & E & _). eauto.
Qed.

(** C5: a non-empty sample without finite value gives NaN for the
    location (and the spread) instead of an error, also for a column of
    the axis-0 reduction; when some value is finite the result is that
    of the sample with its non-finite values removed, for a single
    sample and for every column of the axis-0 reduction. *)
Theorem biweight_nan_excluded (sqrtQ : Q -> Q) (c eps : Q) :
  (forall xs, xs <> [] -> finite_values xs = [] -> biweight sqrtQ c eps xs = Ok (NaN, NaN))
  /\ (forall xs, finite_values xs <> [] ->
        biweight sqrtQ c eps xs = biweight sqrtQ c eps (map Fin (finite_values xs)))
  /\ (forall a j, rectangular a -> (j < ncols a)%nat ->
        exists ls ss, biweight_axis0 sqrtQ c eps a = Ok (ls, ss)
          /\ (finite_values (column j a) = [] -> nth j ls NaN = NaN /\ nth j ss NaN = NaN)
          /\ (finite_values (column j a) <> [] ->
                biweight sqrtQ c eps (map Fin (finite_values (column j a)))
                = Ok (nth j ls NaN, nth j ss NaN))).
Proof.
  split; [apply biweight_all_nan|]. split; [apply biweight_finite_part|].
  intros a j Hr Hj.
  assert (Hne : a <> []) by (intros ->; unfold ncols in Hj; simpl in Hj; lia).
  destruct (biweight_axis0_ok sqrtQ c eps a Hne) as (ls & ss & E & _).
  pose proof (biweight_axis0_column sqrtQ c eps a j Hr Hj) as Hc. rewrite E in Hc.
  exists ls, ss. split; [exact E|]. split.
  - intros Hf. rewrite biweight_all_nan in Hc by (auto using column_nonempty).
    injection Hc as H1 H2. auto.
  - intros Hf. rewrite <- biweight_finite_part by exact Hf. exact Hc.
Qed.

(** C6: for a rectangular array with at least one row, the axis-0
    reduction returns one location and one spread per column, and the
    pair at index [j] is the estimator applied to column [j] alone. *)
Theorem biweight_axis0_matches_columns (sqrtQ : Q -> Q) (c eps : Q) (a : list (list flt)) :
  rectangular a -> a <> [] ->
  exists ls ss,
    biweight_axis0 sqrtQ c eps a = Ok (ls, ss)
    /\ length ls = ncols a /\ length ss = ncols a
    /\ forall j, (j < ncols a)%nat ->
         biweight sqrtQ c eps (column j a) = Ok (nth j ls NaN, nth j ss NaN).
Proof.
  intros Hr Hne.
  destruct (biweight_axis0_ok sqrtQ c eps a Hne) as (ls & ss & E & L1 & L2).
  exists ls, ss. split; [exact E|]. split; [exact L1|]. split; [exact L2|].
  intros j Hj. pose proof (biweight_axis0_column sqrtQ c eps a j Hr Hj) as Hc.
  rewrite E in Hc. exact Hc.
Qed.

Lemma biweight_axis0_matches_columns_witness :
  rectangular bw_example /\ bw_example <> [] /\
  exists ls ss,
    biweight_axis0 (fun q => q) bw_c bw_eps bw_example = Ok (ls, ss)
    /\ length ls = ncols bw_example /\ length ss = ncols bw_example
    /\ forall j, (j < ncols bw_example)%nat ->
         biweight (fun q => q) bw_c bw_eps (column j bw_example) = Ok (nth j ls NaN, nth j ss NaN).
Proof.
  assert (Hr : rectangular bw_example) by (unfold rectangular; repeat constructor).
  assert (Hne : bw_example <> []) by discriminate.
  split; [exact Hr|]. split; [exact Hne|].
  exact (biweight_axis0_matches_columns (fun q => q) bw_c bw_eps bw_example Hr Hne).
Defined.

(** ** S5Pplot.draw_signal: the default profiles *)

(** C1: when [data_col] and [data_row] are not given,
    [S5Pplot.draw_signal] plots [np.nanmedian(data, axis=1)] and
    [np.nanmedian(data, axis=0)] (scaled like the image), not the
    biweight estimate the docstring announces: on the single row
    [1, 2, 3, 4, 5, 100] the default column profile is 3.5, the median,
    while the biweight location of that row differs from 3.5. *)
Theorem draw_signal_default_profiles_nanmedian :
  (forall data u fig, draw_signal data None None u = Ok fig ->
     exists k, fig_col fig = map (rescale k) (nanmedian_axis1 data)
               /\ fig_row fig = map (rescale k) (nanmedian_axis0 data))
  /\ match draw_signal c1_data None None None, biweight_location_axis1 bw_c bw_eps c1_data with
     | Ok fig, Ok [bl] => fig_col fig = [Fin (7 # 2)] /\ feq bl (Fin (7 # 2)) = false
     | _, _ => False
     end.
Proof.
  split.
  - intros data u fig H. unfold draw_signal, frame in H.
    destruct (percentile _ 10) as [p10|e]; [|discriminate]. cbn [ebind] in H.
    destruct (percentile _ 90) as [p90|e]; [|discriminate]. cbn [ebind] in H.
    injection H as <-. eexists. split; reflexivity.
  - vm_compute. split; reflexivity.
Qed.

Local Open Scope string_scope.


Lemma sappend_nil_r (s : string) : (s ++ "")%string = s.
Proof. induction s as [|c s IH]; simpl; [reflexivity|now rewrite IH]. Qed.

Lemma sappend_assoc (a b c : string) : (a ++ (b ++ c))%string = ((a ++ b) ++ c)%string.
Proof. induction a as [|x a IH]; simpl; [reflexivity|now rewrite IH]. Qed.

Lemma slength_append (a b : string) :
  String.length (a ++ b) = (String.length a + String.length b)%nat.
Proof. induction a as [|x a IH]; simpl; [reflexivity|now rewrite IH]. Qed.

Lemma fold_left_if_filter {A B} (c : B -> bool) (h : A -> B -> A) (l : list B) (a : A) :
  fold_left (fun acc x => if c x then h acc x else acc) l a = fold_left h (filter c l) a.
Proof.
  revert a; induction l as [|x l IH]; intros a; simpl; [reflexivity|].
  destruct (c x); simpl; apply IH.
Qed.

Lemma fold_left_flat_map {A B C} (f : A -> C -> A) (g : B -> list C) (l : list B) (a : A) :
  fold_left (fun acc x => fold_left f (g x) acc) l a = fold_left f (flat_map g l) a.
Proof.
  revert a; induction l as [|x l IH]; intros a; simpl; [reflexivity|].
  rewrite fold_left_app. apply IH.
Qed.

Lemma fold_left_append (l : list string) (b : string) :
  fold_left (fun acc ii => (acc ++ ii)%string) l b = (b ++ fold_right String.append "" l)%string.
Proof.
  revert b; induction l as [|x l IH]; intros b; simpl.
  - now rewrite sappend_nil_r.
  - rewrite IH. now rewrite sappend_assoc.
Qed.

Lemma band_ids_length1 : Forall (fun ii => String.length ii = 1%nat) band_ids.
Proof. repeat constructor. Qed.

Lemma length_concat_bands (l : list string) :
  Forall (fun ii => String.length ii = 1%nat) l ->
  String.length (fold_right String.append "" l) = length l.
Proof.
  induction 1 as [|x l Hx _ IH]; simpl; [reflexivity|].
  rewrite slength_append, Hx, IH. reflexivity.
Qed.

(** [ICMio.select] with a given [msm_path]: the path must start with
    [BAND%], else the assertion fails; the selected bands are the
    concatenated band ids [ii] for which [msm_path] with [%] replaced by
    [ii], joined with [msm_type], exists; the path is recorded only when
    at least one band was found. *)
Theorem select_given_path (st : icm) (fid : h5file) (msm_type p : string) :
  let bands := fold_right String.append ""
                 (filter (fun ii => h5_contains fid (path_join (replace_pct p ii) msm_type))
                    band_ids) in
  select st fid msm_type (Some p)
  = if starts_with "BAND%" p then
      Ok (mk_icm (icm_rw st)
            (if Nat.ltb 0 (String.length bands) then Some (path_join p msm_type) else None)
            (Some bands) (icm_patched st), bands)
    else Err AssertionError.
Proof.
  cbv zeta. unfold select.
  destruct (starts_with "BAND%" p); [|reflexivity]. cbn [ebind].
  rewrite (fold_left_if_filter _ (fun acc ii => (acc ++ ii)%string)), fold_left_append.
  simpl. destruct (Nat.ltb 0 _); reflexivity.
Qed.

Lemma fold_step_hits (hits : list (string * string)) (p : option string) (b : string) :
  fold_left (fun (acc : option string * string) (x : string * string) =>
               (Some ("BAND%_" ++ snd x)%string, (snd acc ++ fst x)%string)) hits (p, b)
  = (match rev hits with
     | [] => p
     | (_, name) :: _ => Some ("BAND%_" ++ name)%string
     end, (b ++ fold_right String.append "" (map fst hits))%string).
Proof.
  revert p b; induction hits as [|[ii name] r IH]; intros p b; simpl.
  - now rewrite sappend_nil_r.
  - rewrite IH. rewrite <- sappend_assoc.
    destruct (rev r) as [|[ii' n'] ys]; reflexivity.
Qed.

Lemma select_search_hits (fid : h5file) (msm_type : string) (l : list string)
  (acc : option string * string) :
  fold_left
    (fun acc ii =>
       fold_left
         (fun (acc : option string * string) name =>
            if h5_contains fid (path_join ("BAND" ++ ii ++ "_" ++ name) msm_type)
            then (Some ("BAND%_" ++ name), (snd acc ++ ii)%string)
            else acc)
         select_grp_list acc) l acc
  = fold_left (fun (acc : option string * string) (x : string * string) =>
                 (Some ("BAND%_" ++ snd x)%string, (snd acc ++ fst x)%string))
      (flat_map (fun ii =>
                   map (fun name => (ii, name))
                     (filter (fun name => h5_contains fid
                                (path_join ("BAND" ++ ii ++ "_" ++ name) msm_type))
                        select_grp_list)) l) acc.
Proof.
  revert acc; induction l as [|ii l IH]; intros acc; cbn [fold_left flat_map]; [reflexivity|].
  rewrite fold_left_app, <- IH. f_equal.
  generalize select_grp_list as names. clear IH. intros names.
  revert acc; induction names as [|n names IHn]; intros acc; simpl; [reflexivity|].
  destruct (h5_contains fid _); simpl; apply IHn.
Qed.

(** [ICMio.select] without [msm_path]: every (band, group) pair under
    which [msm_type] exists contributes its band id, so a band found in
    two groups is listed twice; the recorded path uses the group of the
    last pair found, and no path is recorded when nothing is found. *)
Theorem select_search_path (st : icm) (fid : h5file) (msm_type : string) :
  let hits := flat_map (fun ii =>
                 map (fun name => (ii, name))
                   (filter (fun name => h5_contains fid
                              (path_join ("BAND" ++ ii ++ "_" ++ name) msm_type))
                      select_grp_list)) band_ids in
  let bands := fold_right String.append "" (map fst hits) in
  select st fid msm_type None
  = Ok (mk_icm (icm_rw st)
          (match rev hits with
           | [] => None
           | (_, name) :: _ => Some (path_join ("BAND%_" ++ name) msm_type)
           end)
          (Some bands) (icm_patched st), bands).
Proof.
  cbv zeta. unfold select, select_search. cbn [ebind].
  rewrite select_search_hits, fold_step_hits.
  set (hits := flat_map _ band_ids).
  assert (Hl : Forall (fun ii => String.length ii = 1%nat) (map fst hits)).
  { subst hits. apply Forall_forall. intros ii Hi.
    apply in_map_iff in Hi as [[ii' n] [<- Hi]].
    apply in_flat_map in Hi as [jj [Hj Hi]].
    apply in_map_iff in Hi as [n' [Hn _]]. injection Hn as <- _.
    simpl. exact (proj1 (Forall_forall _ _) band_ids_length1 jj Hj). }
  simpl. rewrite (length_concat_bands _ Hl), length_map.
  destruct (rev hits) as [|[ii name] r] eqn:R.
  - assert (hits = []) as ->.
    { rewrite <- (rev_involutive hits), R. reflexivity. }
    reflexivity.
  - assert (0 < length hits)%nat.
    { rewrite <- length_rev, R. simpl. lia. }
    destruct (Nat.ltb 0 (length hits)) eqn:E; [reflexivity|].
    apply PeanoNat.Nat.ltb_ge in E. lia.
Qed.

Local Close Scope string_scope.

Lemma length_list_set {A} (l : list A) k x : length (list_set l k x) = length l.
Proof. revert k; induction l as [|y l IH]; intros [|k]; simpl; auto. Qed.

Lemma ss_ext_refl P s : ss_ext P s s.
Proof. exists []. rewrite app_nil_r. repeat split; auto. Qed.

Lemma ss_ext_trans (P : string -> Prop) s1 s2 s3 :
  ss_ext P s1 s2 -> ss_ext P s2 s3 -> ss_ext P s1 s3.
Proof.
  intros (n1 & E1 & F1 & P1 & L1) (n2 & E2 & F2 & P2 & L2).
  exists (n1 ++ n2). rewrite E2, E1, app_assoc. split; [reflexivity|].
  split; [|split; [apply Forall_app; auto|congruence]].
  intros q Hq. rewrite F2, F1; [reflexivity| |]; intros H; apply Hq; apply in_or_app; auto.
Qed.

Lemma ss_ext_mono (P Q : string -> Prop) s s' :
  (forall q, P q -> Q q) -> ss_ext P s s' -> ss_ext Q s s'.
Proof.
  intros H (n & E & F & Pn & L). exists n. repeat split; auto.
  eapply Forall_impl; eauto.
Qed.

Lemma set_one_ext h5_shape ds_path kk s :
  ss_ext (eq ds_path) s (snd (set_one h5_shape ds_path kk s)).
Proof.
  unfold set_one.
  destruct (ss_fid s ds_path) as [[|d]|] eqn:Hn; try apply ss_ext_refl.
  destruct (ds_fill d) as [f|]; [|apply ss_ext_refl].
  destruct (nth_error (ss_data s) kk) as [a|]; [|apply ss_ext_refl].
  destruct (feq f (Fin fillvalue));
    (destruct (list_eq_dec _ _ _);
     [destruct (h5_shape ds_path) as [|[|n] sh]|]);
    simpl;
    first
      [ solve [exists []; simpl; rewrite app_nil_r; repeat split; auto;
               apply length_list_set]
      | exists [ds_path]; simpl; repeat split; auto;
        try (intros q Hq; unfold h5_write;
             destruct (String.eqb_spec q ds_path) as [->|]; [|reflexivity];
             exfalso; apply Hq; left; reflexivity);
        apply length_list_set ].
Qed.

Lemma set_grps_ext h5_shape p ii dset kk grps s :
  ss_ext (fun q => exists g, In g grps /\ q = msm_ds_path p ii g dset) s
    (snd (set_grps h5_shape p ii dset kk grps s)).
Proof.
  revert s; induction grps as [|g gs IH]; intros s; simpl; [apply ss_ext_refl|].
  pose proof (set_one_ext h5_shape (msm_ds_path p ii g dset) kk s) as H1.
  destruct (set_one h5_shape (msm_ds_path p ii g dset) kk s) as [[[|]|e] s1]; simpl in H1.
  - eapply ss_ext_trans.
    + eapply ss_ext_mono; [|exact H1]. intros q <-. exists g; auto.
    + eapply ss_ext_mono; [|apply IH]. intros q [g' [Hg ->]]. exists g'; auto.
  - eapply ss_ext_mono; [|exact H1]. intros q <-. exists g; auto.
  - eapply ss_ext_mono; [|exact H1]. intros q <-. exists g; auto.
Qed.

Lemma set_bands_ext h5_shape p dset kk iis s :
  ss_ext (fun q => exists ii g, In ii iis /\ In g msm_grp_list /\ q = msm_ds_path p ii g dset) s
    (snd (set_bands h5_shape p dset kk iis s)).
Proof.
  revert kk s; induction iis as [|ii r IH]; intros kk s; cbn [set_bands]; [apply ss_ext_refl|].
  pose proof (set_grps_ext h5_shape p ii dset kk msm_grp_list s) as H1.
  assert (M : forall q, (exists g, In g msm_grp_list /\ q = msm_ds_path p ii g dset) ->
     exists ii' g, (ii = ii' \/ In ii' r) /\ In g msm_grp_list /\ q = msm_ds_path p ii' g dset).
  { intros q [g [Hg ->]]. exists ii, g; auto. }
  destruct (set_grps h5_shape p ii dset kk msm_grp_list s) as [[[|]|e] s1]; cbn [snd] in H1 |- *.
  - eapply ss_ext_trans; [eapply ss_ext_mono; [exact M|exact H1]|].
    eapply ss_ext_mono; [|apply IH]. intros q (ii' & g & Hi & Hg & ->). exists ii', g; split; [right; exact Hi|auto].
  - eapply ss_ext_mono; [exact M|exact H1].
  - eapply ss_ext_mono; [exact M|exact H1].
Qed.

(** [ICMio.set_msm_data] changes only the patched list, the file and the
    caller's data list: selection and read-write flag stay, the data list
    keeps its length, the patched list only grows, and the file changes
    only at the paths appended to it, each of which is a dataset path
    [msm_path % ii / group / msm_dset] of a selected band [ii]. *)
Theorem icm_set_msm_data_frame (h5_shape : string -> list nat) (st : icm) (fid : h5file)
  (msm_dset : string) (data : list ndarray) :
  let '(_, (st', fid', data')) := icm_set_msm_data h5_shape st fid msm_dset data in
  icm_rw st' = icm_rw st /\ icm_msm_path st' = icm_msm_path st
  /\ icm_bands st' = icm_bands st /\ length data' = length data
  /\ exists new, icm_patched st' = icm_patched st ++ new
     /\ (forall q, ~ In q new -> fid' q = fid q)
     /\ Forall (fun q => exists p b ii g, icm_msm_path st = Some p /\ icm_bands st = Some b
                 /\ In ii (chars b) /\ In g msm_grp_list /\ q = msm_ds_path p ii g msm_dset) new.
Proof.
  unfold icm_set_msm_data.
  destruct (icm_msm_path st) as [p|] eqn:Hp.
  2:{ repeat split; auto. exists []. rewrite app_nil_r. repeat split; auto. }
  destruct (icm_rw st) eqn:Hrw.
  2:{ repeat split; auto. exists []. rewrite app_nil_r. repeat split; auto. }
  destruct (icm_bands st) as [b|] eqn:Hb.
  2:{ repeat split; auto. exists []. rewrite app_nil_r. repeat split; auto. }
  pose proof (set_bands_ext h5_shape p msm_dset 0 (chars b) (mk_sstate (icm_patched st) fid data)) as H.
  destruct (set_bands h5_shape p msm_dset 0 (chars b) _) as [r s] eqn:E. simpl in H |- *.
  destruct H as (new & E1 & F1 & P1 & L1).
  repeat split; auto. exists new. repeat split; auto.
  eapply Forall_impl; [|exact P1]. intros q (ii & g & Hi & Hg & ->).
  exists p, b, ii, g; auto.
Qed.

Lemma list_set_app {A} (pre post : list A) (a x : A) :
  list_set (pre ++ a :: post) (length pre) x = pre ++ x :: post.
Proof. induction pre as [|y pre IH]; simpl; [reflexivity|now rewrite IH]. Qed.

Lemma nth_error_app_len {A} (pre post : list A) (a : A) :
  nth_error (pre ++ a :: post) (length pre) = Some a.
Proof. induction pre as [|y pre IH]; simpl; auto. Qed.

Lemma squeeze_shape_no1 (sh : list nat) : ~ In 1%nat sh -> squeeze_shape sh = sh.
Proof.
  induction sh as [|n sh IH]; intros H; simpl; [reflexivity|].
  destruct (PeanoNat.Nat.eqb_spec n 1) as [->|Hn]; [exfalso; apply H; left; reflexivity|].
  simpl. rewrite IH; [reflexivity|]. intros Hi; apply H; right; exact Hi.
Qed.

Lemma Qred_fillvalue : Qred fillvalue = fillvalue.
Proof. vm_compute. reflexivity. Qed.

Lemma feq_fill_canonical (x : flt) :
  (forall q, x = Fin q -> Qred q = q) -> feq x (Fin fillvalue) = true -> x = Fin fillvalue.
Proof.
  destruct x as [q| | |]; simpl; try discriminate.
  intros Hc E. apply Qeq_bool_iff in E. apply Qred_complete in E.
  rewrite (Hc q eq_refl), Qred_fillvalue in E. now rewrite E.
Qed.

(** Reading a dataset and turning NaN back into the fill value. *)
Lemma read_then_restore (flag : bool) (d : dataset) (f : flt) :
  ds_fill d = Some f -> ds_wf d = true ->
  (feq f (Fin fillvalue) = true -> ~ In NaN (ds_data d)) ->
  (forall q, In (Fin q) (ds_data d) -> Qred q = q) ->
  exists xs, icm_read_dset flag (Dset d) = Ok xs
    /\ (if feq f (Fin fillvalue)
        then map (fun x => match x with NaN => Fin fillvalue | _ => x end) xs else xs)
       = ds_data d.
Proof.
  intros Hf Hwf Hnan Hc.
  assert (Hid : feq f (Fin fillvalue) = true ->
    map (fun x => match x with NaN => Fin fillvalue | _ => x end) (ds_data d) = ds_data d).
  { intros E. specialize (Hnan E). induction (ds_data d) as [|x r IH]; [reflexivity|].
    simpl. rewrite IH; [|intros H; apply Hnan; right; exact H|intros q H; apply Hc; right; exact H].
    destruct x; try reflexivity. exfalso; apply Hnan; left; reflexivity. }
  unfold icm_read_dset. rewrite Hf.
  destruct flag.
  - destruct (feq f (Fin fillvalue)) eqn:E.
    + assert (Hfl : forall t, is_int_dtype t = false ->
        exists xs, set_nan_where_fill t (ds_data d) = Ok xs
          /\ map (fun x => match x with NaN => Fin fillvalue | _ => x end) xs = ds_data d).
      { intros t Ht. rewrite set_nan_where_fill_float by exact Ht. eexists; split; [reflexivity|].
        specialize (Hnan eq_refl). clear Hid Hf Hwf.
        induction (ds_data d) as [|x r IH]; [reflexivity|]. simpl.
        rewrite IH; [|intros H; apply Hnan; right; exact H|intros q H; apply Hc; right; exact H].
        destruct (feq x (Fin fillvalue)) eqn:Ex.
        - rewrite (feq_fill_canonical x); [reflexivity| |exact Ex].
          intros q ->. apply Hc. left; reflexivity.
        - destruct x; try reflexivity. exfalso; apply Hnan; left; reflexivity. }
      destruct (ds_dtype d) as [| |w] eqn:T; [apply Hfl; reflexivity|apply Hfl; reflexivity|].
      rewrite (ds_wf_fill d w f Hwf T Hf) in E. discriminate E.
    + eexists; split; reflexivity.
  - eexists; split; [reflexivity|]. destruct (feq f _) eqn:E; [apply Hid; reflexivity|reflexivity].
Qed.

Lemma write_row0_same (d : dataset) (a : ndarray) :
  arr_data a = ds_data d -> write_row0 d a = d.
Proof.
  intros H. unfold write_row0. rewrite H, skipn_all, app_nil_r. destruct d; reflexivity.
Qed.

Lemma h5_write_same (fid fid0 : h5file) (q : string) (n : node) :
  (forall r, fid r = fid0 r) -> fid0 q = Some n ->
  forall r, h5_write fid q n r = fid0 r.
Proof.
  intros H Hq r. unfold h5_write. destruct (String.eqb_spec r q) as [->|]; auto.
Qed.

Lemma set_grps_absent h5_shape fid p ii dset kk gs s :
  (forall q, ss_fid s q = fid q) ->
  filter (fun g => h5_contains fid (msm_ds_path p ii g dset)) gs = [] ->
  set_grps h5_shape p ii dset kk gs s = (Ok true, s).
Proof.
  intros Hs; induction gs as [|g gs IH]; intros Hf; cbn [set_grps]; [reflexivity|].
  cbn [filter] in Hf. unfold h5_contains in Hf.
  destruct (fid (msm_ds_path p ii g dset)) eqn:Hg; [discriminate|].
  unfold set_one at 1. rewrite Hs, Hg. apply IH. exact Hf.
Qed.

Lemma set_grps_hit h5_shape fid p ii dset kk gs s g d f sh xs pre post :
  (forall q, ss_fid s q = fid q) ->
  filter (fun g => h5_contains fid (msm_ds_path p ii g dset)) gs = [g] ->
  fid (msm_ds_path p ii g dset) = Some (Dset d) -> ds_fill d = Some f ->
  h5_shape (msm_ds_path p ii g dset) = (1%nat :: sh) -> ~ In 1%nat sh ->
  ss_data s = pre ++ mk_ndarray (squeeze_shape (1%nat :: sh)) xs :: post -> length pre = kk ->
  (if feq f (Fin fillvalue)
   then map (fun x => match x with NaN => Fin fillvalue | _ => x end) xs else xs) = ds_data d ->
  exists fid', set_grps h5_shape p ii dset kk gs s
    = (Ok true, mk_sstate (ss_patched s ++ [msm_ds_path p ii g dset]) fid'
                  (pre ++ mk_ndarray sh (ds_data d) :: post))
    /\ forall q, fid' q = fid q.
Proof.
  intros Hs; revert s Hs; induction gs as [|g0 gs IH]; intros s Hs Hf Hg Hfill Hsh Hno1 Hd Hk Hx;
    [discriminate|].
  cbn [filter] in Hf. unfold h5_contains in Hf at 1.
  destruct (fid (msm_ds_path p ii g0 dset)) as [n0|] eqn:Hg0.
  - injection Hf as <- Hrest. rewrite Hg in Hg0. injection Hg0 as <-.
    cbn [set_grps]. unfold set_one at 1. rewrite Hs, Hg, Hfill, Hd, <- Hk, nth_error_app_len.
    simpl squeeze_shape. rewrite (squeeze_shape_no1 sh Hno1).
    assert (Ha : (if feq f (Fin fillvalue) then nan_to_fill (mk_ndarray sh xs) else mk_ndarray sh xs)
                 = mk_ndarray sh (ds_data d)).
    { rewrite <- Hx. destruct (feq f _); reflexivity. }
    assert (Hdata : (if feq f (Fin fillvalue)
                     then list_set (pre ++ mk_ndarray sh xs :: post) (length pre) (mk_ndarray sh (ds_data d))
                     else pre ++ mk_ndarray sh xs :: post) = pre ++ mk_ndarray sh (ds_data d) :: post).
    { destruct (feq f _) eqn:E; [rewrite list_set_app; reflexivity|].
      simpl in Hx. subst xs. reflexivity. }
    rewrite Ha, Hdata, Hsh. cbn [tl arr_shape].
    destruct (list_eq_dec PeanoNat.Nat.eq_dec sh sh) as [_|C]; [|exfalso; apply C; reflexivity].
    rewrite (write_row0_same d (mk_ndarray sh (ds_data d)) eq_refl).
    rewrite (set_grps_absent h5_shape fid p ii dset _ gs); [|cbn [ss_fid]; apply h5_write_same; auto|exact Hrest].
    eexists; split; [reflexivity|]. apply h5_write_same; auto.
  - cbn [set_grps]. unfold set_one at 1. rewrite Hs, Hg0. apply IH; auto.
Qed.

Lemma probe_single (fid : h5file) (path : string -> string) (gs : list string) (g : string) (n : node) :
  filter (fun g => h5_contains fid (path g)) gs = [g] -> fid (path g) = Some n ->
  flat_map (fun g => match fid (path g) with Some n => [n] | None => [] end) gs = [n].
Proof.
  intros Hf Hg. induction gs as [|g0 gs IH]; [discriminate|].
  cbn [filter] in Hf. cbn [flat_map]. unfold h5_contains in Hf at 1.
  destruct (fid (path g0)) as [n0|] eqn:H0.
  - injection Hf as <- Hr. rewrite Hg in H0. injection H0 as <-. cbn [app].
    f_equal. clear IH. induction gs as [|g1 gs IH']; [reflexivity|].
    cbn [filter] in Hr. unfold h5_contains in Hr at 1. cbn [flat_map].
    destruct (fid (path g1)); [discriminate|]. exact (IH' Hr).
  - exact (IH Hf).
Qed.

Lemma roundtrip_bands h5_shape fid p dset flag iis :
  Forall (band_roundtrip_ok h5_shape fid p dset) iis ->
  let paths := flat_map (fun ii => map (fun g => msm_ds_path p ii g dset)
                 (filter (fun g => h5_contains fid (msm_ds_path p ii g dset)) msm_grp_list)) iis in
  let found := flat_map (fun ii => flat_map (fun g =>
                 match fid (msm_ds_path p ii g dset) with Some n => [n] | None => [] end)
                 msm_grp_list) iis in
  exists arrs, emap (icm_read_dset flag) found = Ok arrs /\ length arrs = length paths /\
    forall kk s pre post, (forall q, ss_fid s q = fid q) ->
      ss_data s = pre ++ map (fun qx => mk_ndarray (squeeze_shape (h5_shape (fst qx))) (snd qx))
                             (combine paths arrs) ++ post ->
      length pre = kk ->
      exists fid', set_bands h5_shape p dset kk iis s
        = (Ok tt, mk_sstate (ss_patched s ++ paths) fid'
                    (pre ++ map (fun q => mk_ndarray (squeeze_shape (h5_shape q)) (h5_values fid q)) paths
                     ++ post))
        /\ forall q, fid' q = fid q.
Proof.
  induction 1 as [|ii iis Hii _ IH]; cbv zeta.
  - exists []. split; [reflexivity|split; [reflexivity|]].
    intros kk s pre post Hs Hd Hk. exists (ss_fid s). cbn [set_bands].
    split; [|exact Hs]. rewrite app_nil_r. simpl in Hd |- *. rewrite <- Hd. destruct s; reflexivity.
  - cbv zeta in IH. destruct IH as (arrs & Harrs & Hlen & Hset).
    destruct Hii as (g & d & f & sh & Hf & Hg & Hfill & Hwf & Hnan & Hc & Hsh & Hno1).
    destruct (read_then_restore flag d f Hfill Hwf Hnan Hc) as (xs & Hxs & Hx).
    cbn [flat_map]. rewrite Hf, (probe_single fid (fun g => msm_ds_path p ii g dset) _ g (Dset d) Hf Hg).
    cbn [map app]. exists (xs :: arrs). cbn [emap]. rewrite Hxs, Harrs.
    split; [reflexivity|split; [simpl; rewrite Hlen; reflexivity|]].
    intros kk s pre post Hs Hd Hk. cbn [combine map] in Hd. cbn [fst snd] in Hd.
    rewrite Hsh in Hd.
    destruct (set_grps_hit h5_shape fid p ii dset kk msm_grp_list s g d f sh xs pre
                (map (fun qx => mk_ndarray (squeeze_shape (h5_shape (fst qx))) (snd qx))
                   (combine (flat_map (fun ii => map (fun g => msm_ds_path p ii g dset)
                      (filter (fun g => h5_contains fid (msm_ds_path p ii g dset)) msm_grp_list)) iis) arrs)
                 ++ post)
                Hs Hf Hg Hfill Hsh Hno1 Hd Hk Hx) as (fid1 & Hg1 & Hfid1).
    cbn [set_bands]. rewrite Hg1.
    destruct (Hset (S kk) (mk_sstate (ss_patched s ++ [msm_ds_path p ii g dset]) fid1
                (pre ++ mk_ndarray sh (ds_data d)
                   :: map (fun qx => mk_ndarray (squeeze_shape (h5_shape (fst qx))) (snd qx))
                        (combine (flat_map (fun ii => map (fun g => msm_ds_path p ii g dset)
                           (filter (fun g => h5_contains fid (msm_ds_path p ii g dset)) msm_grp_list)) iis) arrs)
                      ++ post))
                (pre ++ [mk_ndarray sh (ds_data d)]) post)
      as (fid2 & Hb & Hfid2).
    + exact Hfid1.
    + cbn [ss_data]. rewrite <- app_assoc. reflexivity.
    + rewrite length_app, Hk. simpl. lia.
    + exists fid2. split; [|exact Hfid2]. rewrite Hb. cbn [ss_patched].
      rewrite <- !app_assoc. cbn [app map]. rewrite Hsh.
      replace (h5_values fid (msm_ds_path p ii g dset)) with (ds_data d)
        by (unfold h5_values; rewrite Hg; reflexivity).
      simpl squeeze_shape. rewrite (squeeze_shape_no1 sh Hno1).
      reflexivity.
Qed.

(** Reading the selected datasets with [get_msm_data] and writing the
    result back with [set_msm_data] leaves the file unchanged, under the
    conditions of [band_roundtrip_ok] for every selected band: the
    dataset is in exactly one group, has a [_FillValue] attribute and
    values numpy can store; when that [_FillValue] is the S5p fill value
    the dataset holds no NaN (a NaN would be written back as the fill
    value); its shape is [(1, ...)] with no other axis of length one (so
    that [np.squeeze] keeps [shape[1:]]); and its values are rationals
    in lowest terms (the form every float has in this model).  The
    caller's arrays come back with the fill value in place of NaN and
    every dataset path is recorded as patched. *)
Theorem icm_get_set_roundtrip (h5_shape : string -> list nat) (st : icm) (fid : h5file)
  (msm_dset : string) (fill_as_nan : bool) (p b : string) :
  icm_msm_path st = Some p -> icm_bands st = Some b -> icm_rw st = true ->
  b <> EmptyString ->
  Forall (band_roundtrip_ok h5_shape fid p msm_dset) (chars b) ->
  let paths := icm_found_paths fid p b msm_dset in
  exists arrs, icm_get_msm_data st fid msm_dset fill_as_nan = Ok (Some arrs)
    /\ exists fid',
         icm_set_msm_data h5_shape st fid msm_dset
           (map (fun qx => mk_ndarray (squeeze_shape (h5_shape (fst qx))) (snd qx))
              (combine paths arrs))
         = (Ok None, (mk_icm true (Some p) (Some b) (icm_patched st ++ paths), fid',
                      map (fun q => mk_ndarray (squeeze_shape (h5_shape q)) (h5_values fid q)) paths))
       /\ forall q, fid' q = fid q.
Proof.
  intros Hp Hb Hrw Hne Hok. cbv zeta.
  destruct (roundtrip_bands h5_shape fid p msm_dset fill_as_nan (chars b) Hok)
    as (arrs & Harrs & Hlen & Hset).
  exists arrs. split.
  - unfold icm_get_msm_data. rewrite Hp, Hb.
    change (icm_found fid p b msm_dset) with
      (flat_map (fun ii => flat_map (fun g =>
         match fid (msm_ds_path p ii g msm_dset) with Some n => [n] | None => [] end)
         msm_grp_list) (chars b)).
    rewrite Harrs. cbn [ebind].
    destruct arrs as [|a arrs]; [|reflexivity]. exfalso.
    assert (Hcb : chars b <> []) by (destruct b; [contradiction|discriminate]).
    unfold icm_found_paths in Hlen.
    destruct (chars b) as [|ii iis]; [contradiction|].
    inversion Hok as [|ii' iis' Hii _ E]; subst.
    destruct Hii as (g & _ & _ & _ & Hf & _).
    cbn [flat_map] in Hlen. rewrite Hf in Hlen. discriminate Hlen.
  - unfold icm_set_msm_data. rewrite Hp, Hrw, Hb.
    destruct (Hset 0%nat (mk_sstate (icm_patched st) fid
                (map (fun qx => mk_ndarray (squeeze_shape (h5_shape (fst qx))) (snd qx))
                   (combine (icm_found_paths fid p b msm_dset) arrs))) [] [])
      as (fid' & E & Hfid'); [reflexivity| |reflexivity|].
    + cbn [ss_data app]. rewrite app_nil_r. reflexivity.
    + unfold icm_found_paths in E |- *. rewrite E. exists fid'. split; [|exact Hfid'].
      cbn [ss_patched ss_fid ss_data app]. rewrite app_nil_r. reflexivity.
Qed.

Local Open Scope string_scope.
Lemma icm_get_set_roundtrip_witness :
  let h5_shape := fun _ : string => [1%nat; 3%nat] in
  (icm_msm_path rt_st = Some "BAND%_RADIANCE/BACKGROUND_MODE_1063"
   /\ icm_bands rt_st = Some "1" /\ icm_rw rt_st = true /\ "1" <> EmptyString
   /\ Forall (band_roundtrip_ok h5_shape rt_fid "BAND%_RADIANCE/BACKGROUND_MODE_1063" "signal")
        (chars "1"))
  /\ exists arrs,
       icm_get_msm_data rt_st rt_fid "signal" true = Ok (Some arrs)
       /\ exists fid',
            icm_set_msm_data h5_shape rt_st rt_fid "signal"
              (map (fun qx => mk_ndarray (squeeze_shape (h5_shape (fst qx))) (snd qx))
                 (combine (icm_found_paths rt_fid "BAND%_RADIANCE/BACKGROUND_MODE_1063" "1" "signal") arrs))
            = (Ok None, (mk_icm true (Some "BAND%_RADIANCE/BACKGROUND_MODE_1063") (Some "1")
                           (app (icm_patched rt_st) (icm_found_paths rt_fid "BAND%_RADIANCE/BACKGROUND_MODE_1063" "1" "signal")),
                         fid',
                         map (fun q => mk_ndarray (squeeze_shape (h5_shape q)) (h5_values rt_fid q))
                           (icm_found_paths rt_fid "BAND%_RADIANCE/BACKGROUND_MODE_1063" "1" "signal")))
          /\ forall q, fid' q = rt_fid q.
Proof.
  cbv zeta.
  assert (Hok : Forall (band_roundtrip_ok (fun _ => [1%nat; 3%nat]) rt_fid
                  "BAND%_RADIANCE/BACKGROUND_MODE_1063" "signal") (chars "1")).
  { constructor; [|constructor].
    exists "OBSERVATIONS"%string, (mk_dataset Float32 [Fin 1; Fin fillvalue; Fin 3] (Some (Fin fillvalue))),
      (Fin fillvalue), [3%nat].
    split; [vm_compute; reflexivity|].
    split; [vm_compute; reflexivity|].
    split; [reflexivity|]. split; [reflexivity|].
    split; [intros _ H; simpl in H; destruct H as [H|[H|[H|H]]]; discriminate H || exact H|].
    split; [intros q H; simpl in H; destruct H as [H|[H|[H|H]]];
            [injection H as <-|injection H as <-|injection H as <-|destruct H]; vm_compute; reflexivity|].
    split; [reflexivity|]. simpl. intros [H|H]; [discriminate H|exact H]. }
  split; [repeat split; [discriminate|exact Hok]|].
  exact (icm_get_set_roundtrip (fun _ => [1%nat; 3%nat]) rt_st rt_fid "signal" true
           "BAND%_RADIANCE/BACKGROUND_MODE_1063" "1" eq_refl eq_refl eq_refl
           ltac:(discriminate) Hok).
Defined.
Local Close Scope string_scope.

Lemma h5idx_nat (v : h5py_version) (len c : nat) :
  (c < len)%nat -> h5idx v len (Z.of_nat c) = Ok c.
Proof.
  intros H. unfold h5idx.
  replace (Z.of_nat c <? 0)%Z with false by (symmetry; apply Z.ltb_ge; lia).
  replace ((0 <=? Z.of_nat c)%Z && (Z.of_nat c <? Z.of_nat len)%Z)%bool with true
    by (symmetry; apply andb_true_iff; split; [apply Z.leb_le|apply Z.ltb_lt]; lia).
  now rewrite Nat2Z.id.
Qed.

Lemma h5idx_last (v : h5py_version) (len : nat) :
  (1 <= len)%nat -> h5idx v len (-1) = Ok (len - 1)%nat.
Proof.
  intros H. unfold h5idx. cbn [Z.ltb Z.compare].
  replace ((0 <=? Z.of_nat len + -1)%Z && (Z.of_nat len + -1 <? Z.of_nat len)%Z)%bool with true
    by (symmetry; apply andb_true_iff; split; [apply Z.leb_le|apply Z.ltb_lt]; lia).
  f_equal. lia.
Qed.

Lemma h5idx_ok (v : h5py_version) (len : nat) (i : Z) (k : nat) :
  h5idx v len i = Ok k -> (0 <= (if (i <? 0)%Z then Z.of_nat len + i else i) < Z.of_nat len)%Z.
Proof.
  unfold h5idx. destruct (_ && _)%bool eqn:E; [|discriminate]. intros _.
  apply andb_true_iff in E as [E1 E2]. apply Z.leb_le in E1. apply Z.ltb_lt in E2. lia.
Qed.

Lemma h5idx_val (v : h5py_version) (len : nat) (i : Z) (k : nat) :
  h5idx v len i = Ok k
  -> Z.of_nat k = (if (i <? 0)%Z then Z.of_nat len + i else i)%Z /\ (k < len)%nat.
Proof.
  unfold h5idx. destruct (_ && _)%bool eqn:E; [|discriminate]. intros H. injection H as <-.
  apply andb_true_iff in E as [E1 E2]. apply Z.leb_le in E1. apply Z.ltb_lt in E2. lia.
Qed.

Lemma h5idx_err (v : h5py_version) (len : nat) (i : Z) (e : pyexc) :
  h5idx v len i = Err e -> e = h5_index_error v.
Proof. unfold h5idx. destruct (_ && _)%bool; intros H; [discriminate H|injection H; auto]. Qed.

Lemma mapi_from_map_seq {A B} (f : nat -> A -> B) (h : nat -> A) (s n : nat) :
  mapi_from f s (map h (seq s n)) = map (fun i => f i (h i)) (seq s n).
Proof. revert s; induction n as [|n IH]; intros s; simpl; [reflexivity|now rewrite IH]. Qed.

Lemma mapi_grid (F : nat -> nat -> option flt -> option flt) (G : nat -> nat -> option flt)
  (n m : nat) :
  mapi (fun i r => mapi (fun j x => F i j x) r)
    (map (fun i => map (fun j => G i j) (seq 0 m)) (seq 0 n))
  = map (fun i => map (fun j => F i j (G i j)) (seq 0 m)) (seq 0 n).
Proof.
  unfold mapi. rewrite mapi_from_map_seq. apply map_ext. intros i.
  rewrite mapi_from_map_seq. reflexivity.
Qed.

Lemma map_const_seq {A} (x : A) (s k : nat) : map (fun _ => x) (seq s k) = repeat x k.
Proof. revert s; induction k; intros s; simpl; [reflexivity|now rewrite IHk]. Qed.

Lemma empty_grid_seq (n m : nat) :
  empty_grid n m = map (fun i => map (fun j => (None : option flt)) (seq 0 (S m))) (seq 0 (S n)).
Proof.
  unfold empty_grid. rewrite map_const_seq. f_equal. rewrite map_const_seq. reflexivity.
Qed.

Lemma emap_bcast_same {A} (m : nat) (rows : list (list A)) :
  Forall (fun r => length r = m) rows -> emap (bcast m) rows = Ok rows.
Proof.
  induction 1 as [|r rows Hr _ IH]; [reflexivity|]. simpl.
  unfold bcast at 1. rewrite Hr, PeanoNat.Nat.eqb_refl. cbn [ebind]. rewrite IH. reflexivity.
Qed.

Lemma bcast_same {A} (k : nat) (l : list A) : length l = k -> bcast k l = Ok l.
Proof. intros H. unfold bcast. rewrite H, PeanoNat.Nat.eqb_refl. reflexivity. Qed.

Lemma nth_map_d {A B} (f : A -> B) (l : list A) (d : A) (d' : B) (i : nat) :
  f d = d' -> nth i (map f l) d' = f (nth i l d).
Proof. intros <-. apply map_nth. Qed.

Theorem bounds_mesh_closed (ver : h5py_version) (b : arr4) :
  (1 <= dim0 b)%nat -> (1 <= dim1 b)%nat -> (1 <= dim2 b)%nat -> (3 <= dim3 b)%nat ->
  Forall (fun row => length row = dim2 b) (hd [] b) ->
  bounds_mesh ver (dim1 b) (dim2 b) b = Ok (geo_mesh_expected b (dim1 b) (dim2 b)).
Proof.
  intros H0 H1 H2 H3 Hrect.
  destruct b as [|plane bs]; [simpl in H0; lia|].
  set (n := dim1 (plane :: bs)) in *. set (m := dim2 (plane :: bs)) in *.
  assert (Hn : length plane = n) by reflexivity.
  cbn [hd] in Hrect.
  unfold bounds_mesh, slice_tc, slice_tic, slice_tjc, elem4.
  change 0%Z with (Z.of_nat 0). change 1%Z with (Z.of_nat 1). change 2%Z with (Z.of_nat 2).
  rewrite !(h5idx_nat ver (dim0 _) 0) by lia.
  rewrite !(h5idx_nat ver (dim3 _) 0) by lia.
  rewrite !(h5idx_nat ver (dim3 _) 1) by lia.
  rewrite !(h5idx_nat ver (dim3 _) 2) by lia.
  fold n m. rewrite !h5idx_last by lia.
  cbn [ebind nth].
  unfold set_block.
  rewrite bcast_same by (rewrite length_map; exact Hn).
  cbn [ebind].
  rewrite emap_bcast_same.
  2:{ apply Forall_map. eapply Forall_impl; [|exact Hrect]. intros r Hr. rewrite length_map. exact Hr. }
  cbn [ebind]. unfold set_last_row.
  rewrite bcast_same.
  2:{ rewrite length_map. apply (proj1 (Forall_forall _ _) Hrect). apply nth_In. lia. }
  cbn [ebind]. unfold set_last_col.
  rewrite bcast_same by (rewrite length_map; exact Hn).
  cbn [ebind]. unfold set_corner.
  rewrite empty_grid_seq, !mapi_grid.
  unfold geo_mesh_expected. f_equal.
  apply map_ext_in. intros i Hi. apply in_seq in Hi.
  apply map_ext_in. intros j Hj. apply in_seq in Hj.
  unfold geo_at. cbn [nth].
  destruct (PeanoNat.Nat.ltb_spec i n), (PeanoNat.Nat.ltb_spec j m),
    (PeanoNat.Nat.eqb_spec i n), (PeanoNat.Nat.eqb_spec j m); cbn [andb]; try lia.
  - rewrite (nth_map_d _ _ [] [] i) by reflexivity.
    rewrite (nth_map_d _ _ [] NaN j) by reflexivity. reflexivity.
  - rewrite (nth_map_d _ _ [] NaN i) by (destruct (m - 1)%nat; reflexivity). reflexivity.
  - rewrite (nth_map_d _ _ [] NaN j) by reflexivity. reflexivity.
  - reflexivity.
Qed.

(** [LV2io.get_geo_bounds] on well-shaped bounds datasets assigns every
    cell of the [(n+1) x (m+1)] mesh: corner 0 of each pixel in the block,
    corner 1 of the last scan line along the bottom edge and corner 1 of
    the last ground pixel along the right edge, and corner 2 of the last
    pixel at the far corner, with either h5py release. *)
Theorem get_geo_bounds_mesh (ver : h5py_version) (lat lon : arr4) :
  (1 <= dim1 lat)%nat -> (1 <= dim2 lat)%nat ->
  geo_shape_ok lat (dim1 lat) (dim2 lat) -> geo_shape_ok lon (dim1 lat) (dim2 lat) ->
  get_geo_bounds ver lat lon
  = Ok (geo_mesh_expected lat (dim1 lat) (dim2 lat), geo_mesh_expected lon (dim1 lat) (dim2 lat)).
Proof.
  intros Hn Hm (A0 & _ & _ & A3 & Ar) (B0 & B1 & B2 & B3 & Br).
  unfold get_geo_bounds. rewrite bounds_mesh_closed by assumption. cbn [ebind].
  rewrite <- B1, <- B2, bounds_mesh_closed by (rewrite ?B1, ?B2; assumption || (rewrite B2; exact Br)).
  reflexivity.
Qed.

Lemma bounds_mesh_ok_dims (ver : h5py_version) (n m : nat) (b : arr4) r :
  bounds_mesh ver n m b = Ok r ->
  (1 <= dim0 b)%nat /\ (1 <= dim1 b)%nat /\ (1 <= dim2 b)%nat /\ (3 <= dim3 b)%nat.
Proof.
  unfold bounds_mesh, slice_tc, slice_tic, slice_tjc, elem4. intros H.
  repeat match type of H with
         | context [ebind ?m _] =>
             let E := fresh "E" in
             destruct m eqn:E; cbn [ebind] in H; [|discriminate H]
         end.
  repeat match goal with
         | E : h5idx _ _ _ = Ok _ |- _ => apply h5idx_ok in E; cbn [Z.ltb Z.compare] in E
         end.
  clear E E1 E3.
  repeat match type of E5 with
         | context [ebind ?m _] =>
             let F := fresh "F" in
             destruct m eqn:F; cbn [ebind] in E5; [|discriminate E5]
         end.
  repeat match goal with
         | F : h5idx _ _ _ = Ok _ |- _ => apply h5idx_ok in F; cbn [Z.ltb Z.compare] in F
         end.
  repeat split; lia.
Qed.

(** One index of h5py: go on with its value, or stop with its error. *)
Ltac h5_case t k E :=
  destruct t as [k|?e] eqn:E; cbn [ebind];
  [|let H := fresh in intros H; injection H as <-; exact (h5idx_err _ _ _ _ E)].

(** On a dataset whose rows all have the extent of its second axis, the
    broadcasts of [bounds_mesh] always succeed: its only failure is the
    index error of h5py. *)
Lemma bounds_mesh_err (ver : h5py_version) (b : arr4) (e : pyexc) :
  Forall (fun row => length row = dim2 b) (hd [] b) ->
  bounds_mesh ver (dim1 b) (dim2 b) b = Err e -> e = h5_index_error ver.
Proof.
  intros Hr. unfold bounds_mesh, slice_tc, slice_tic, slice_tjc, elem4.
  assert (H0 : nth 0 b [] = hd [] b) by (destruct b; reflexivity).
  h5_case (h5idx ver (dim0 b) 0) t T.
  apply h5idx_val in T as [T _]. cbn in T. replace t with 0%nat by lia. rewrite H0.
  h5_case (h5idx ver (dim3 b) 0) c0 C0.
  unfold set_block. rewrite bcast_same by (rewrite length_map; reflexivity). cbn [ebind].
  rewrite emap_bcast_same.
  2:{ apply Forall_map. eapply Forall_impl; [|exact Hr]. intros r Hl. rewrite length_map. exact Hl. }
  cbn [ebind].
  h5_case (h5idx ver (dim1 b) (-1)) i1 I1.
  apply h5idx_val in I1 as [_ I1].
  h5_case (h5idx ver (dim3 b) 1) c1 C1.
  unfold set_last_row.
  rewrite bcast_same.
  2:{ rewrite length_map. apply (proj1 (Forall_forall _ _) Hr). apply nth_In. exact I1. }
  cbn [ebind].
  h5_case (h5idx ver (dim2 b) (-1)) j1 J1.
  unfold set_last_col. rewrite bcast_same by (rewrite length_map; reflexivity). cbn [ebind].
  h5_case (h5idx ver (dim3 b) 2) c2 C2.
  intros H; discriminate H.
Qed.

(** [LV2io.get_geo_bounds] raises the index error of the h5py release
    ([ValueError] with h5py 2, [IndexError] with h5py 3) when the latitude
    bounds have no time step, no scan line, no ground pixel or fewer
    than three corners, whatever the longitude bounds hold. *)
Theorem get_geo_bounds_degenerate (ver : h5py_version) (lat lon : arr4) :
  Forall (fun row => length row = dim2 lat) (hd [] lat) ->
  (dim0 lat = 0 \/ dim1 lat = 0 \/ dim2 lat = 0 \/ dim3 lat < 3)%nat ->
  get_geo_bounds ver lat lon = Err (h5_index_error ver).
Proof.
  intros Hr Hd. unfold get_geo_bounds.
  destruct (bounds_mesh ver (dim1 lat) (dim2 lat) lat) as [la|e] eqn:E.
  - apply bounds_mesh_ok_dims in E. lia.
  - cbn [ebind]. f_equal. exact (bounds_mesh_err ver lat e Hr E).
Qed.

Lemma get_geo_bounds_mesh_witness :
  (1 <= dim1 geo_example)%nat /\ (1 <= dim2 geo_example)%nat
  /\ geo_shape_ok geo_example (dim1 geo_example) (dim2 geo_example)
  /\ get_geo_bounds H5py3 geo_example geo_example
     = Ok (geo_mesh_expected geo_example (dim1 geo_example) (dim2 geo_example),
           geo_mesh_expected geo_example (dim1 geo_example) (dim2 geo_example)).
Proof.
  assert (H1 : (1 <= dim1 geo_example)%nat) by (cbn; lia).
  assert (H2 : (1 <= dim2 geo_example)%nat) by (cbn; lia).
  assert (Hs : geo_shape_ok geo_example (dim1 geo_example) (dim2 geo_example)).
  { unfold geo_shape_ok; cbn; repeat split; try lia; repeat constructor. }
  split; [exact H1|]. split; [exact H2|]. split; [exact Hs|].
  exact (get_geo_bounds_mesh H5py3 geo_example geo_example H1 H2 Hs Hs).
Defined.

Lemma get_geo_bounds_degenerate_witness :
  Forall (fun row => length row = dim2 geo_two_corners) (hd [] geo_two_corners)
  /\ (dim0 geo_two_corners = 0 \/ dim1 geo_two_corners = 0 \/ dim2 geo_two_corners = 0
      \/ dim3 geo_two_corners < 3)%nat
  /\ get_geo_bounds H5py3 geo_two_corners geo_example = Err IndexError.
Proof.
  assert (Hr : Forall (fun row => length row = dim2 geo_two_corners) (hd [] geo_two_corners))
    by (repeat constructor).
  assert (H : (dim0 geo_two_corners = 0 \/ dim1 geo_two_corners = 0 \/ dim2 geo_two_corners = 0
               \/ dim3 geo_two_corners < 3)%nat) by (right; right; right; cbn; lia).
  split; [exact Hr|]. split; [exact H|].
  exact (get_geo_bounds_degenerate H5py3 geo_two_corners geo_example Hr H).
Defined.

Lemma quality_mask_ok_shape (dpqm : list (list Q)) (dpqf : list (list Z)) :
  rectangular dpqm -> quality_mask dpqm = Ok dpqf ->
  length dpqf = length dpqm
  /\ Forall (fun r => length r = ncols dpqm) dpqf
  /\ forall i j, (i < length dpqm)%nat -> (j < ncols dpqm)%nat ->
       at2 0%Z dpqf i j
       = if existsb (Nat.eqb j) (unused_cols dpqm) || existsb (Nat.eqb j) (unused_rows dpqm)
         then (-1)%Z else wrap_int8 (Qtrunc (at2 0 dpqm i j * 10)).
Proof.
  intros Hr H.
  destruct (dpqf_of_shape dpqm Hr) as (L0 & F0 & E0).
  pose proof (assign_step (dpqf_of dpqm) (ncols dpqm) (unused_cols dpqm) F0) as S1.
  unfold quality_mask in H.
  destruct (match unused_cols dpqm with
            | [] => Ok (dpqf_of dpqm)
            | _ => assign_cols (dpqf_of dpqm) (ncols dpqm) (unused_cols dpqm)
            end) as [m1|e1]; [|discriminate H].
  destruct S1 as (_ & L1 & F1 & E1). cbn [ebind] in H.
  pose proof (assign_step m1 (ncols dpqm) (unused_rows dpqm) F1) as S2.
  rewrite H in S2. destruct S2 as (_ & L2 & F2 & E2).
  split; [congruence|split; [exact F2|]].
  intros i j Hi Hj.
  rewrite E2 by congruence. rewrite E1 by congruence. rewrite E0 by assumption.
  destruct (existsb (Nat.eqb j) (unused_cols dpqm));
    destruct (existsb (Nat.eqb j) (unused_rows dpqm)); reflexivity.
Qed.

Lemma below_thres_mono (t1 t2 : Q) (x : Z) :
  t1 <= t2 -> below_thres t1 x = true -> below_thres t2 x = true.
Proof.
  unfold below_thres. intros Ht H. apply andb_true_iff in H as [H0 H1].
  apply andb_true_iff; split; [exact H0|].
  apply negb_true_iff in H1. apply negb_true_iff.
  apply not_true_iff_false. intros H2. apply Qle_bool_iff in H2.
  apply not_true_iff_false in H1. apply H1. apply Qle_bool_iff.
  apply Qle_trans with t2; assumption.
Qed.

Lemma length_filter_mono {A} (f g : A -> bool) (l : list A) :
  (forall x, f x = true -> g x = true) -> (length (filter f l) <= length (filter g l))%nat.
Proof.
  intros H. induction l as [|x l IH]; simpl; [lia|].
  destruct (f x) eqn:Ef; [rewrite (H x Ef)|destruct (g x)]; simpl; lia.
Qed.

(** In [S5Pplot.__quality], with [low_thres <= high_thres] every profile
    count and the total for the low threshold are at most those for the
    high threshold. *)
Theorem quality_thresholds_ordered (dpqm : list (list Q)) (low high : Q) (fig : quality_fig) :
  quality dpqm low high = Ok fig -> low <= high ->
  Forall2 le (q_col_01 fig) (q_col_08 fig)
  /\ Forall2 le (q_row_01 fig) (q_row_08 fig)
  /\ (count_all (10 * low) (q_image fig) <= count_all (10 * high) (q_image fig))%nat.
Proof.
  unfold quality. intros H Hlh.
  destruct (quality_mask dpqm) as [dpqf|e]; cbn [ebind] in H; [|discriminate H].
  injection H as <-. cbn [q_col_01 q_col_08 q_row_01 q_row_08 q_image].
  assert (Ht : 10 * low <= 10 * high).
  { apply Qmult_le_l; [reflexivity|exact Hlh]. }
  assert (Hb : forall x, below_thres (10 * low) x = true -> below_thres (10 * high) x = true).
  { intros x. apply below_thres_mono; exact Ht. }
  split; [|split].
  - unfold count_axis1. induction dpqf as [|r rs IH]; simpl; constructor; [|exact IH].
    apply length_filter_mono; exact Hb.
  - unfold count_axis0_q. generalize (seq 0 (ncols dpqf)). induction l as [|j js IH]; simpl; constructor; [|exact IH].
    apply length_filter_mono. intros r. apply Hb.
  - apply length_filter_mono; exact Hb.
Qed.

(** In [S5Pplot.__quality], a column set to -1 by either mask (a column
    with a small sum, or the index of a row with a small sum) counts no bad
    pixel in the column profiles drawn under the image. *)
Theorem quality_masked_columns_not_counted (dpqm : list (list Q)) (low high : Q)
    (fig : quality_fig) (j : nat) :
  rectangular dpqm -> quality dpqm low high = Ok fig -> (j < ncols dpqm)%nat ->
  existsb (Nat.eqb j) (unused_cols dpqm) || existsb (Nat.eqb j) (unused_rows dpqm) = true ->
  nth j (q_row_01 fig) 0%nat = 0%nat /\ nth j (q_row_08 fig) 0%nat = 0%nat.
Proof.
  intros Hr H Hj Hm.
  unfold quality in H.
  destruct (quality_mask dpqm) as [dpqf|e] eqn:Eq; cbn [ebind] in H; [|discriminate H].
  injection H as <-. cbn [q_row_01 q_row_08].
  destruct (quality_mask_ok_shape dpqm dpqf Hr Eq) as (L & F & E).
  assert (Hc : ncols dpqf = ncols dpqm).
  { destruct dpqf as [|r rs]; [destruct dpqm; [reflexivity|discriminate L]|].
    inversion F; subst. assumption. }
  assert (Hz : forall t, length (filter (fun r => below_thres t (nth j r 0%Z)) dpqf) = 0%nat).
  { intros t. rewrite (filter_ext_in _ (fun _ => false)), filter_false; [reflexivity|].
    intros r Hin. apply In_nth with (d := []) in Hin as (i & Hi & <-).
    pose proof (E i j ltac:(lia) Hj) as Ei. unfold at2 in Ei. rewrite Hm in Ei.
    rewrite Ei. reflexivity. }
  unfold count_axis0_q. rewrite Hc, !nth_map_seq by exact Hj.
  split; apply Hz.
Qed.

Lemma list_sum_count_row (f : Z -> bool) (r : list Z) :
  list_sum (map (fun j => if f (nth j r 0%Z) then 1%nat else 0%nat) (seq 0 (length r)))
  = length (filter f r).
Proof.
  induction r as [|x r IH]; [reflexivity|].
  cbn [length seq map nth list_sum fold_right filter].
  rewrite <- seq_shift, map_map. cbn [nth].
  unfold list_sum in IH. rewrite IH. destruct (f x); reflexivity.
Qed.

Lemma list_sum_map_add {A} (f g : A -> nat) (l : list A) :
  list_sum (map (fun x => (f x + g x)%nat) l) = (list_sum (map f l) + list_sum (map g l))%nat.
Proof.
  induction l as [|x l IH]; [reflexivity|].
  change (list_sum (map (fun x => (f x + g x)%nat) (x :: l))) with ((f x + g x) + list_sum (map (fun x => (f x + g x)%nat) l))%nat.
  change (list_sum (map f (x :: l))) with (f x + list_sum (map f l))%nat.
  change (list_sum (map g (x :: l))) with (g x + list_sum (map g l))%nat.
  rewrite IH. lia.
Qed.

Lemma count_axis0_sum (t : Q) (n : nat) (dpqf : list (list Z)) :
  Forall (fun r => length r = n) dpqf ->
  list_sum (map (fun j => length (filter (fun r => below_thres t (nth j r 0%Z)) dpqf)) (seq 0 n))
  = count_all t dpqf.
Proof.
  unfold count_all. induction 1 as [|r rs Hr _ IH].
  - cbn. induction (seq 0 n); [reflexivity|]. exact IHl.
  - rewrite (map_ext _ (fun j => ((if below_thres t (nth j r 0%Z) then 1 else 0)
                  + length (filter (fun r => below_thres t (nth j r 0%Z)) rs))%nat)).
    + rewrite list_sum_map_add, IH, <- Hr, list_sum_count_row.
      cbn [concat]. rewrite filter_app, length_app. reflexivity.
    + intros j. cbn [filter]. destruct (below_thres t (nth j r 0%Z)); reflexivity.
Qed.

Lemma count_axis1_sum (t : Q) (dpqf : list (list Z)) :
  list_sum (count_axis1 t dpqf) = count_all t dpqf.
Proof.
  unfold count_axis1, count_all. induction dpqf as [|r rs IH]; [reflexivity|].
  cbn [map concat]. rewrite filter_app, length_app, <- IH. reflexivity.
Qed.

(** In [S5Pplot.__quality] the row profile and the column profile of a
    threshold add up to the same number, which is the [dpqf_01] or
    [dpqf_08] value of the figure information. *)
Theorem quality_profiles_sum_to_totals (dpqm : list (list Q)) (low high : Q) (fig : quality_fig) :
  rectangular dpqm -> quality dpqm low high = Ok fig ->
  list_sum (q_row_01 fig) = list_sum (q_col_01 fig)
  /\ list_sum (q_row_08 fig) = list_sum (q_col_08 fig)
  /\ q_info fig = [("thres_01"%string, low);
                   ("dpqf_01"%string, inject_Z (Z.of_nat (list_sum (q_col_01 fig))));
                   ("thres_08"%string, high);
                   ("dpqf_08"%string, inject_Z (Z.of_nat (list_sum (q_col_08 fig))))].
Proof.
  intros Hr H. unfold quality in H.
  destruct (quality_mask dpqm) as [dpqf|e] eqn:Eq; cbn [ebind] in H; [|discriminate H].
  injection H as <-. cbn [q_row_01 q_row_08 q_col_01 q_col_08 q_info].
  destruct (quality_mask_ok_shape dpqm dpqf Hr Eq) as (L & F & _).
  assert (F' : Forall (fun r => length r = ncols dpqf) dpqf).
  { destruct dpqf as [|r rs]; [constructor|]. inversion F; subst.
    change (ncols (r :: rs)) with (length r). rewrite H1. exact F. }
  unfold count_axis0_q. rewrite !(count_axis0_sum _ _ _ F'), !count_axis1_sum.
  split; [reflexivity|split; reflexivity].
Qed.

Lemma quality_thresholds_ordered_witness :
  exists fig, quality qual_example (1 # 10) (8 # 10) = Ok fig /\ (1 # 10) <= (8 # 10)
  /\ Forall2 le (q_col_01 fig) (q_col_08 fig)
  /\ Forall2 le (q_row_01 fig) (q_row_08 fig)
  /\ (count_all (10 * (1 # 10)) (q_image fig) <= count_all (10 * (8 # 10)) (q_image fig))%nat.
Proof.
  destruct (quality qual_example (1 # 10) (8 # 10)) as [fig|e] eqn:E;
    [|vm_compute in E; discriminate E].
  assert (Hle : (1 # 10) <= (8 # 10)) by (vm_compute; discriminate).
  exists fig. split; [reflexivity|]. split; [exact Hle|].
  exact (quality_thresholds_ordered qual_example (1 # 10) (8 # 10) fig E Hle).
Defined.

Lemma quality_masked_columns_not_counted_witness :
  exists fig, rectangular qual_example /\ quality qual_example (1 # 10) (8 # 10) = Ok fig
  /\ (1 < ncols qual_example)%nat
  /\ existsb (Nat.eqb 1) (unused_cols qual_example) || existsb (Nat.eqb 1) (unused_rows qual_example) = true
  /\ nth 1 (q_row_01 fig) 0%nat = 0%nat /\ nth 1 (q_row_08 fig) 0%nat = 0%nat.
Proof.
  destruct (quality qual_example (1 # 10) (8 # 10)) as [fig|e] eqn:E;
    [|vm_compute in E; discriminate E].
  assert (Hr : rectangular qual_example) by (repeat constructor).
  assert (Hn : (1 < ncols qual_example)%nat) by (unfold ncols; simpl; lia).
  assert (Hm : existsb (Nat.eqb 1) (unused_cols qual_example)
               || existsb (Nat.eqb 1) (unused_rows qual_example) = true) by (vm_compute; reflexivity).
  exists fig. repeat split; try assumption;
  apply (quality_masked_columns_not_counted qual_example (1 # 10) (8 # 10) fig 1 Hr E Hn Hm).
Defined.

Lemma quality_profiles_sum_to_totals_witness :
  exists fig, rectangular qual_example /\ quality qual_example (1 # 10) (8 # 10) = Ok fig
  /\ list_sum (q_row_01 fig) = list_sum (q_col_01 fig)
  /\ list_sum (q_row_08 fig) = list_sum (q_col_08 fig)
  /\ q_info fig = [("thres_01"%string, 1 # 10);
                   ("dpqf_01"%string, inject_Z (Z.of_nat (list_sum (q_col_01 fig))));
                   ("thres_08"%string, 8 # 10);
                   ("dpqf_08"%string, inject_Z (Z.of_nat (list_sum (q_col_08 fig))))].
Proof.
  destruct (quality qual_example (1 # 10) (8 # 10)) as [fig|e] eqn:E;
    [|vm_compute in E; discriminate E].
  assert (Hr : rectangular qual_example) by (repeat constructor).
  exists fig. split; [exact Hr|]. split; [reflexivity|].
  exact (quality_profiles_sum_to_totals qual_example (1 # 10) (8 # 10) fig Hr E).
Defined.


















Lemma select_selection_has_band (st : icm) (fid : h5file) (msm_type : string)
    (msm_path : option string) (st' : icm) (bands : string) :
  select st fid msm_type msm_path = Ok (st', bands) -> selection_has_band st'.
Proof.
  unfold select. intros H.
  destruct (match msm_path with
            | Some p => if starts_with "BAND%" p then _ else Err AssertionError
            | None => _ end) as [[p bs]|e]; cbn [ebind] in H; [|discriminate H].
  destruct bs as [|c rest]; cbn in H.
  - injection H as <- _. left. reflexivity.
  - destruct p as [p|]; [|discriminate H].
    injection H as <- _. right. exists c, rest. reflexivity.
Qed.

Lemma set_msm_data_selection (h5_shape : string -> list nat) (st : icm) (fid : h5file)
    (msm_dset : string) (data : list ndarray) r st' fid' data' :
  icm_set_msm_data h5_shape st fid msm_dset data = (r, (st', fid', data')) ->
  icm_msm_path st' = icm_msm_path st /\ icm_bands st' = icm_bands st.
Proof.
  unfold icm_set_msm_data. intros H.
  destruct (icm_msm_path st) as [p|] eqn:Hp;
    [|injection H; intros; subst; split; [exact Hp|reflexivity]].
  destruct (icm_rw st); [|injection H; intros; subst; split; [exact Hp|reflexivity]].
  destruct (icm_bands st) as [b|] eqn:Hb;
    [|injection H; intros; subst; split; [exact Hp|exact Hb]].
  destruct (set_bands h5_shape p msm_dset 0 (chars b) (mk_sstate (icm_patched st) fid data)).
  injection H; intros; subst. split; reflexivity.
Qed.

(** On an [ICMio] object that was opened and then changed only by
    successful [select] calls and by [set_msm_data] calls, a recorded
    selection always comes with a non-empty band string, so
    [str(self.bands[0])] in [get_ref_time], [get_delta_time],
    [get_instrument_settings] and [get_housekeeping_data] never fails. *)
Theorem icm_reachable_first_band (st : icm) (fid : h5file) :
  icm_reachable st fid -> icm_msm_path st <> None -> exists ii, first_band st = Ok ii.
Proof.
  intros R.
  assert (I : selection_has_band st).
  { induction R as [rw fid|st fid t mp st' b R IH E|h st fid d data r st' fid' data' R IH E].
    - left. reflexivity.
    - exact (select_selection_has_band st fid t mp st' b E).
    - destruct (set_msm_data_selection h st fid d data r st' fid' data' E) as [E1 E2].
      unfold selection_has_band. rewrite E1, E2. exact IH. }
  intros Hp.
  destruct I as [I|(c & rest & I)]; [contradiction|].
  exists (String c EmptyString). unfold first_band. rewrite I. reflexivity.
Qed.

Local Open Scope string_scope.
Lemma icm_reachable_first_band_witness :
  exists st, icm_reachable st inv_fid /\ icm_msm_path st <> None
  /\ exists ii, first_band st = Ok ii.
Proof.
  destruct (select (icm_init false) inv_fid "BACKGROUND_MODE_1063" (Some "BAND%_RADIANCE"))
    as [[st b]|e] eqn:E; [|vm_compute in E; discriminate E].
  assert (R : icm_reachable st inv_fid)
    by exact (reach_select _ _ _ _ st b (reach_init false inv_fid) E).
  assert (Hp : icm_msm_path st <> None)
    by (vm_compute in E; injection E as <- _; discriminate).
  exists st. split; [exact R|]. split; [exact Hp|].
  exact (icm_reachable_first_band st inv_fid R Hp).
Defined.
Local Close Scope string_scope.

Local Open Scope string_scope.
Lemma odict_get_absent (k : string) (d : odict) :
  odict_mem k d = false -> odict_get k d = Err KeyError.
Proof.
  induction d as [|[k' v'] d IH]; simpl; [reflexivity|].
  destruct (String.eqb k' k); simpl; [discriminate|exact IH].
Qed.
Local Close Scope string_scope.

Local Open Scope string_scope.
Lemma hist_center_frame (sqrtQ : Q -> Q) (name km ks : string) (xs : list flt) (s s' : hstate)
    (r : except (list flt)) :
  String.eqb ks km = false ->
  hist_center sqrtQ name km ks xs s = (r, s') ->
  hs_draws s' = hs_draws s
  /\ forall k, String.eqb km k = false -> String.eqb ks k = false ->
       odict_mem k (hs_info s') = odict_mem k (hs_info s).
Proof.
  intros Hne H. rewrite (hist_center_run sqrtQ name km ks xs s Hne) in H.
  destruct (odict_mem km (hs_info s) && odict_mem ks (hs_info s))%bool.
  - injection H as _ <-. split; reflexivity.
  - destruct (biweight sqrtQ bw_c bw_eps xs) as [[m sp]|e]; injection H as _ <-; cbn [hs_info hs_draws].
    + split; [reflexivity|]. intros k H1 H2. rewrite !odict_mem_update, H1, H2. reflexivity.
    + split; reflexivity.
Qed.
Local Close Scope string_scope.

Local Open Scope string_scope.
(** [S5Pplot.draw_hist] with a [fig_info] dictionary that lacks
    ['num_sigma'] draws no histogram and does not return: [__hist] only
    adds the median and spread keys, so the lookup of ['num_sigma']
    raises, unless a [biweight] call raised before. *)
Theorem draw_hist_without_num_sigma (sqrtQ : Q -> Q) (sig err : list (list flt)) (d : odict) :
  odict_mem "num_sigma"%string d = false ->
  hs_draws (snd (draw_hist sqrtQ sig err (Some d))) = []
  /\ fst (draw_hist sqrtQ sig err (Some d)) <> Ok tt.
Proof.
  intros Hd. unfold draw_hist, hist_body, hbind. cbn [hist_init].
  destruct (hist_center sqrtQ "signal" "sign_median" "sign_spread" _ _) as [[sg|e] s1] eqn:E1;
    destruct (hist_center_frame sqrtQ "signal" "sign_median" "sign_spread" _ _ _ _ eq_refl E1) as [D1 M1]; cbn [hs_draws hs_info] in D1, M1.
  2: { split; [cbn [snd]; exact D1|discriminate]. }
  destruct (hist_center sqrtQ "error" "error_median" "error_spread" _ s1) as [[er|e] s2] eqn:E2;
    destruct (hist_center_frame sqrtQ "error" "error_median" "error_spread" _ _ _ _ eq_refl E2) as [D2 M2].
  2: { split; [cbn [snd]; rewrite D2; exact D1|discriminate]. }
  unfold hget. rewrite odict_get_absent.
  - split; [cbn; rewrite D2; exact D1|discriminate].
  - rewrite M2, M1 by reflexivity. exact Hd.
Qed.
Local Close Scope string_scope.

Local Open Scope string_scope.
(** [S5Pplot.draw_hist] without [fig_info], when both [biweight] calls
    return: the call returns, the figure information is [num_sigma = 3]
    followed by the signal and the error median and spread in this
    order, [biweight] is called on the finite signal values and then on
    the finite error values, and the two histograms are drawn on the
    centred values over [-3 * spread, 3 * spread]. *)
Theorem draw_hist_default_info (sqrtQ : Q -> Q) (sig err : list (list flt)) (m1 s1 m2 s2 : flt) :
  biweight sqrtQ bw_c bw_eps (filter isfinite (concat sig)) = Ok (m1, s1) ->
  biweight sqrtQ bw_c bw_eps (filter isfinite (concat err)) = Ok (m2, s2) ->
  draw_hist sqrtQ sig err None
  = (Ok tt,
     mk_hstate
       [("num_sigma"%string, Fin 3); ("sign_median"%string, m1); ("sign_spread"%string, s1);
        ("error_median"%string, m2); ("error_spread"%string, s2)]
       [("signal"%string, filter isfinite (concat sig)); ("error"%string, filter isfinite (concat err))]
       [("signal"%string, map (fun x => fsub x m1) (filter isfinite (concat sig)),
         (fmul (fneg (Fin 3)) s1, fmul (Fin 3) s1));
        ("error"%string, map (fun x => fsub x m2) (filter isfinite (concat err)),
         (fmul (fneg (Fin 3)) s2, fmul (Fin 3) s2))]).
Proof.
  intros B1 B2. unfold draw_hist, hist_body, hbind. cbn [hist_init].
  rewrite hist_center_run by reflexivity. cbn [hs_info hs_calls hs_draws odict_mem existsb fst String.eqb Ascii.eqb Bool.eqb andb orb].
  rewrite B1.
  rewrite hist_center_run by reflexivity. cbn [hs_info hs_calls hs_draws].
  unfold odict_update, odict_mem. cbn.
  rewrite B2. cbn. reflexivity.
Qed.
Local Close Scope string_scope.

Local Open Scope string_scope.
Lemma draw_hist_without_num_sigma_witness :
  odict_mem "num_sigma" [("sign_median", Fin 0)] = false
  /\ hs_draws (snd (draw_hist (fun x => x) hist_sig hist_err (Some [("sign_median", Fin 0)]))) = []
  /\ fst (draw_hist (fun x => x) hist_sig hist_err (Some [("sign_median", Fin 0)])) <> Ok tt.
Proof.
  assert (H : odict_mem "num_sigma" [("sign_median", Fin 0)] = false) by reflexivity.
  split; [exact H|].
  exact (draw_hist_without_num_sigma (fun x => x) hist_sig hist_err _ H).
Defined.
Local Close Scope string_scope.

Local Open Scope string_scope.
Lemma draw_hist_default_info_witness :
  exists m1 s1 m2 s2,
    biweight (fun x => x) bw_c bw_eps (filter isfinite (concat hist_sig)) = Ok (m1, s1)
    /\ biweight (fun x => x) bw_c bw_eps (filter isfinite (concat hist_err)) = Ok (m2, s2)
    /\ draw_hist (fun x => x) hist_sig hist_err None
       = (Ok tt,
          mk_hstate
            [("num_sigma", Fin 3); ("sign_median", m1); ("sign_spread", s1);
             ("error_median", m2); ("error_spread", s2)]
            [("signal", filter isfinite (concat hist_sig)); ("error", filter isfinite (concat hist_err))]
            [("signal", map (fun x => fsub x m1) (filter isfinite (concat hist_sig)),
              (fmul (fneg (Fin 3)) s1, fmul (Fin 3) s1));
             ("error", map (fun x => fsub x m2) (filter isfinite (concat hist_err)),
              (fmul (fneg (Fin 3)) s2, fmul (Fin 3) s2))]).
Proof.
  destruct (biweight (fun x => x) bw_c bw_eps (filter isfinite (concat hist_sig)))
    as [[m1 s1]|e] eqn:B1; [|vm_compute in B1; discriminate B1].
  destruct (biweight (fun x => x) bw_c bw_eps (filter isfinite (concat hist_err)))
    as [[m2 s2]|e] eqn:B2; [|vm_compute in B2; discriminate B2].
  exists m1, s1, m2, s2. split; [reflexivity|]. split; [reflexivity|].
  exact (draw_hist_default_info (fun x => x) hist_sig hist_err m1 s1 m2 s2 B1 B2).
Defined.
Local Close Scope string_scope.

Lemma hd_error_filter_split {A} (P : A -> bool) (l : list A) (x : A) :
  hd_error (filter P l) = Some x ->
  exists pre post, l = pre ++ x :: post /\ filter P pre = [] /\ P x = true.
Proof.
  induction l as [|y l IH]; cbn [filter]; [discriminate|].
  destruct (P y) eqn:Py; cbn [hd_error].
  - intros H. injection H as <-. exists [], l. split; [reflexivity|split; [reflexivity|exact Py]].
  - intros H. destruct (IH H) as (pre & post & -> & Hf & Px).
    exists (y :: pre), post. split; [reflexivity|]. split; [cbn [filter]; rewrite Py; exact Hf|exact Px].
Qed.

Lemma set_grps_app h5_shape p ii dset kk pre gs s :
  set_grps h5_shape p ii dset kk (pre ++ gs) s
  = match set_grps h5_shape p ii dset kk pre s with
    | (Ok true, s') => set_grps h5_shape p ii dset kk gs s'
    | r => r
    end.
Proof.
  revert s. induction pre as [|g pre IH]; intros s; cbn [app set_grps]; [reflexivity|].
  destruct (set_one h5_shape (msm_ds_path p ii g dset) kk s) as [[[|]|e] s'].
  - apply IH.
  - reflexivity.
  - reflexivity.
Qed.

Lemma set_bands_absent h5_shape fid p dset kk pre l s :
  (forall q, ss_fid s q = fid q) ->
  Forall (fun ii => filter (fun g => h5_contains fid (msm_ds_path p ii g dset)) msm_grp_list = [])
    pre ->
  set_bands h5_shape p dset kk (pre ++ l) s = set_bands h5_shape p dset (kk + length pre) l s.
Proof.
  intros Hs Hpre. revert kk. induction Hpre as [|ii pre Hii _ IH]; intros kk.
  - cbn [app length]. rewrite PeanoNat.Nat.add_0_r. reflexivity.
  - cbn [app set_bands]. rewrite (set_grps_absent h5_shape fid p ii dset kk msm_grp_list s Hs Hii).
    rewrite IH. cbn [length]. rewrite PeanoNat.Nat.add_succ_r. reflexivity.
Qed.

(** [ICMio.set_msm_data] when the first dataset it visits does not have
    the shape of the array it is compared with: that array is
    [data[kk]], where [kk] is the position of the dataset's band among
    the selected bands (the bands before it hold no such dataset, and
    [kk] counts them all).  The call returns [None] without writing to
    the product or recording a patch, but when the dataset's fill value
    is the S5p fill value the caller's [data[kk]] has already had its
    NaN entries replaced by the fill value. *)
Theorem icm_set_msm_data_shape_mismatch (h5_shape : string -> list nat) (st : icm) (fid : h5file)
    (msm_dset : string) (data : list ndarray) (p b : string) (pre : list string) (ii : string)
    (rest : list string) (g : string) (d : dataset) (f : flt) (a : ndarray) :
  icm_msm_path st = Some p -> icm_bands st = Some b -> icm_rw st = true ->
  chars b = pre ++ ii :: rest ->
  Forall (fun ii' => filter (fun g => h5_contains fid (msm_ds_path p ii' g msm_dset)) msm_grp_list = [])
    pre ->
  hd_error (filter (fun g => h5_contains fid (msm_ds_path p ii g msm_dset)) msm_grp_list) = Some g ->
  fid (msm_ds_path p ii g msm_dset) = Some (Dset d) -> ds_fill d = Some f ->
  nth_error data (length pre) = Some a ->
  tl (h5_shape (msm_ds_path p ii g msm_dset)) <> arr_shape a ->
  icm_set_msm_data h5_shape st fid msm_dset data
  = (Ok None, (mk_icm true (Some p) (Some b) (icm_patched st), fid,
               if feq f (Fin fillvalue) then list_set data (length pre) (nan_to_fill a) else data)).
Proof.
  intros Hp Hb Hrw Hc Hpre Hg Hd Hf Ha Hsh.
  unfold icm_set_msm_data. rewrite Hp, Hrw, Hb, Hc.
  rewrite (set_bands_absent h5_shape fid p msm_dset 0 pre (ii :: rest)
             (mk_sstate (icm_patched st) fid data) (fun _ => eq_refl) Hpre).
  cbn [Nat.add set_bands].
  destruct (hd_error_filter_split _ _ _ Hg) as (gpre & post & Hl & Hgpre & _).
  rewrite Hl, set_grps_app.
  rewrite (set_grps_absent h5_shape fid p ii msm_dset (length pre) gpre
             (mk_sstate (icm_patched st) fid data) (fun _ => eq_refl) Hgpre).
  cbn [set_grps]. unfold set_one at 1. cbn [ss_fid ss_data ss_patched].
  rewrite Hd, Hf, Ha.
  destruct (feq f (Fin fillvalue)).
  - destruct (list_eq_dec PeanoNat.Nat.eq_dec (tl (h5_shape (msm_ds_path p ii g msm_dset)))
                (arr_shape (nan_to_fill a))) as [E|_]; [contradiction|reflexivity].
  - destruct (list_eq_dec PeanoNat.Nat.eq_dec (tl (h5_shape (msm_ds_path p ii g msm_dset)))
                (arr_shape a)) as [E|_]; [contradiction|reflexivity].
Qed.

Local Open Scope string_scope.
Lemma icm_set_msm_data_shape_mismatch_witness :
  let h5_shape := fun _ : string => [1%nat; 2%nat] in
  let p := "BAND%_RADIANCE/BACKGROUND_MODE_1063" in
  let d := mk_dataset Float32 [Fin 1; Fin fillvalue] (Some (Fin fillvalue)) in
  let a := mk_ndarray [3%nat] [Fin 1; NaN; Fin 3] in
  (icm_msm_path mis_st = Some p /\ icm_bands mis_st = Some "12" /\ icm_rw mis_st = true
   /\ chars "12" = app ["1"] ("2" :: [])
   /\ Forall (fun ii' => filter (fun g => h5_contains mis_fid (msm_ds_path p ii' g "signal"))
                           msm_grp_list = []) ["1"]
   /\ hd_error (filter (fun g => h5_contains mis_fid (msm_ds_path p "2" g "signal")) msm_grp_list)
      = Some "OBSERVATIONS"
   /\ mis_fid (msm_ds_path p "2" "OBSERVATIONS" "signal") = Some (Dset d)
   /\ ds_fill d = Some (Fin fillvalue) /\ nth_error mis_data (length ["1"]) = Some a
   /\ tl (h5_shape (msm_ds_path p "2" "OBSERVATIONS" "signal")) <> arr_shape a)
  /\ icm_set_msm_data h5_shape mis_st mis_fid "signal" mis_data
     = (Ok None, (mk_icm true (Some p) (Some "12") (icm_patched mis_st), mis_fid,
                  if feq (Fin fillvalue) (Fin fillvalue)
                  then list_set mis_data (length ["1"]) (nan_to_fill a) else mis_data)).
Proof.
  cbv zeta.
  assert (H1 : icm_msm_path mis_st = Some "BAND%_RADIANCE/BACKGROUND_MODE_1063") by reflexivity.
  assert (H2 : icm_bands mis_st = Some "12") by reflexivity.
  assert (H3 : icm_rw mis_st = true) by reflexivity.
  assert (H4 : chars "12" = app ["1"] ("2" :: [])) by reflexivity.
  assert (H5 : Forall (fun ii' => filter (fun g => h5_contains mis_fid
                 (msm_ds_path "BAND%_RADIANCE/BACKGROUND_MODE_1063" ii' g "signal"))
                 msm_grp_list = []) ["1"])
    by (constructor; [vm_compute; reflexivity|constructor]).
  assert (H6 : hd_error (filter (fun g => h5_contains mis_fid
                 (msm_ds_path "BAND%_RADIANCE/BACKGROUND_MODE_1063" "2" g "signal")) msm_grp_list)
               = Some "OBSERVATIONS") by (vm_compute; reflexivity).
  assert (H7 : mis_fid (msm_ds_path "BAND%_RADIANCE/BACKGROUND_MODE_1063" "2" "OBSERVATIONS" "signal")
               = Some (Dset (mk_dataset Float32 [Fin 1; Fin fillvalue] (Some (Fin fillvalue)))))
    by (vm_compute; reflexivity).
  assert (H8 : ds_fill (mk_dataset Float32 [Fin 1; Fin fillvalue] (Some (Fin fillvalue)))
               = Some (Fin fillvalue)) by reflexivity.
  assert (H9 : nth_error mis_data (length ["1"]) = Some (mk_ndarray [3%nat] [Fin 1; NaN; Fin 3]))
    by reflexivity.
  assert (H10 : tl ((fun _ : string => [1%nat; 2%nat])
                  (msm_ds_path "BAND%_RADIANCE/BACKGROUND_MODE_1063" "2" "OBSERVATIONS" "signal"))
                <> arr_shape (mk_ndarray [3%nat] [Fin 1; NaN; Fin 3])) by discriminate.
  split; [repeat split; assumption|].
  exact (icm_set_msm_data_shape_mismatch (fun _ => [1%nat; 2%nat]) mis_st mis_fid "signal" mis_data
           _ _ _ _ _ _ _ _ _ H1 H2 H3 H4 H5 H6 H7 H8 H9 H10).
Defined.
Local Close Scope string_scope.
